(** * Research-Follow: the ingestion, dedup, filter, rank and select pipeline

    A shallow embedding of [src/main.py] and the properties of its
    deduplicator, time window, threshold stages, ranking and state store.

    Conventions of the embedding.
    - A Python [str] is a [string]: a sequence of characters whose code
      points are below 256.  On that range [str.lower], [str.strip], [in]
      and [str.startswith] are the ones of Python.
    - A [datetime] is an instant: a number of microseconds since the epoch,
      in [Z].  Two timezone-aware datetimes compare by their instants.
    - A Python [int] is a [Z]; a [list] is a [list]; the [set] of seen
      fingerprints is a [gset string]; the [source_weight] dict is a
      [gmap string Z].  The numbers of the configuration ([lookback_hours],
      the weights, the thresholds) are integers, but for
      [min_relevance_score]: the program converts it with [int], so it is
      any value that the configuration file can hold.
    - What the program gets from outside (the feeds, the clock, the LLM
      replies, the mail server, the state file) is an explicit input:
      [Runtime], [Env] and [World]. *)

From stdpp Require Import gmap strings list sorting.
From Stdlib Require Import ZArith Ascii SpecFloat DecimalString.

Open Scope Z_scope.

(** ** Python strings *)

Module PyStr.

Definition code (c : ascii) : N := N_of_ascii c.

Definition in_range (lo hi : N) (c : ascii) : bool :=
  ((lo <=? code c) && (code c <=? hi))%N.

(** The characters below 256 that have a lowercase mapping: A-Z, and the
    Latin-1 capitals U+00C0..U+00DE without the multiplication sign U+00D7. *)
Definition is_upper (c : ascii) : bool :=
  in_range 65 90 c || in_range 192 214 c || in_range 216 222 c.

Definition lower_char (c : ascii) : ascii :=
  if is_upper c then ascii_of_N (code c + 32) else c.

(** [s.lower()] *)
Fixpoint lower (s : string) : string :=
  match s with
  | EmptyString => EmptyString
  | String c s' => String (lower_char c) (lower s')
  end.

(** [str.isspace] on one character: TAB..CR, FS..US, space, NEL, NBSP. *)
Definition is_space (c : ascii) : bool :=
  in_range 9 13 c || in_range 28 32 c
  || (code c =? 133)%N || (code c =? 160)%N.

Definition is_empty (s : string) : bool :=
  match s with EmptyString => true | String _ _ => false end.

Fixpoint lstrip (s : string) : string :=
  match s with
  | EmptyString => EmptyString
  | String c s' => if is_space c then lstrip s' else s
  end.

Fixpoint rstrip (s : string) : string :=
  match s with
  | EmptyString => EmptyString
  | String c s' =>
      let r := rstrip s' in
      if is_space c && is_empty r then EmptyString else String c r
  end.

(** [s.strip()] *)
Definition strip (s : string) : string := rstrip (lstrip s).

(** [s.startswith(p)] *)
Fixpoint startswith (s p : string) : bool :=
  match p, s with
  | EmptyString, _ => true
  | String _ _, EmptyString => false
  | String a p', String b s' => if Ascii.eqb a b then startswith s' p' else false
  end.

(** [needle in hay] *)
Fixpoint contains (hay needle : string) : bool :=
  startswith hay needle ||
  match hay with
  | EmptyString => false
  | String _ hay' => contains hay' needle
  end.

(** The character class [a-z0-9] of the pattern in [normalize_title]. *)
Definition is_lower_alnum (c : ascii) : bool :=
  in_range 97 122 c || in_range 48 57 c.

(** [re.sub(r"[^a-z0-9]+", "", s)]: every maximal run of characters outside
    the class is replaced by the empty string, the others are copied. *)
Fixpoint sub_non_alnum (s : string) : string :=
  match s with
  | EmptyString => EmptyString
  | String c s' =>
      if is_lower_alnum c then String c (sub_non_alnum s') else sub_non_alnum s'
  end.

(** An ASCII letter of either case, or an ASCII digit. *)
Definition is_ascii_alnum (c : ascii) : bool :=
  in_range 65 90 c || in_range 97 122 c || in_range 48 57 c.

End PyStr.

(** ** Python lists: slices and the stable sort *)

Module PyList.

Section Slices.
Context {A : Type}.

(** [l[:n]]: a negative bound counts from the end. *)
Definition slice_to (n : Z) (l : list A) : list A :=
  if 0 <=? n then take (Z.to_nat n) l
  else take (length l - Z.to_nat (- n))%nat l.

(** [l[n:]] for the same bound: what [l[:n]] leaves. *)
Definition slice_from (n : Z) (l : list A) : list A :=
  if 0 <=? n then drop (Z.to_nat n) l
  else drop (length l - Z.to_nat (- n))%nat l.

(** [l[-n:]] for a positive literal [n]: the last [n] elements. *)
Definition last_n (n : nat) (l : list A) : list A :=
  drop (length l - n)%nat l.

(** [l.sort(key=key, reverse=True)]: descending and stable, elements with
    equal keys keep their order. *)
Fixpoint insert_desc (key : A -> Z) (x : A) (l : list A) : list A :=
  match l with
  | [] => [x]
  | y :: l' => if key y <=? key x then x :: l else y :: insert_desc key x l'
  end.

Definition sort_desc (key : A -> Z) (l : list A) : list A :=
  foldr (insert_desc key) [] l.

(** The elements of [l] at the positions that [keep] accepts, in order. *)
Fixpoint filter_index (keep : nat -> A -> bool) (i : nat) (l : list A) : list A :=
  match l with
  | [] => []
  | x :: l' =>
      if keep i x then x :: filter_index keep (S i) l'
      else filter_index keep (S i) l'
  end.
End Slices.

End PyList.

(** ** JSON values, as [json.loads] returns them *)

#[local] Set Warnings "-register-all".

Inductive json : Type :=
  | JNull
  | JBool (b : bool)
  | JInt (z : Z)
  | JFloat (f : spec_float)
  | JStr (s : string)
  | JList (l : list json)
  | JObj (kvs : list (string * json)).

(** [d.get(key, default)] on the bindings of a dict. *)
Fixpoint dict_get (kvs : list (string * json)) (key : string) (default : json) : json :=
  match kvs with
  | [] => default
  | (k, v) :: kvs' => if String.eqb k key then v else dict_get kvs' key default
  end.

(** [int(f)] for a float: truncation toward zero; an error on inf and nan. *)
Definition int_of_float (f : spec_float) : option Z :=
  match f with
  | S754_zero _ => Some 0
  | S754_finite s m e =>
      let a := if 0 <=? e then Z.pos m * 2 ^ e else Z.pos m / 2 ^ (- e) in
      Some (if s then - a else a)
  | S754_infinity _ | S754_nan => None
  end.

(** The builtins the program calls whose result depends on text formats. *)
Record Runtime : Type := {
  (** [int(s)] on a [str]; [None] is [ValueError] *)
  int_of_str : string -> option Z;
  (** [str(v)] *)
  py_str : json -> string;
  (** [dateparser.parse(s).astimezone(timezone.utc)]; [None] is an exception *)
  parse_date : string -> option Z;
  (** [dt.isoformat()] *)
  isoformat : Z -> string
}.

(** [int(v)]; [None] is [TypeError], [ValueError] or [OverflowError]. *)
Definition py_int (rt : Runtime) (v : json) : option Z :=
  match v with
  | JInt z => Some z
  | JBool b => Some (if b then 1 else 0)
  | JFloat f => int_of_float f
  | JStr s => int_of_str rt s
  | JNull | JList _ | JObj _ => None
  end.

(** ** The data model *)

(** The three dicts [p.summary] can be bound to: the reply of the summary
    call, the two-field placeholder of a failed call, and the placeholder
    of a run without LLM, which restates the title and the journal. *)
Inductive Summary : Type :=
  | SummaryReply (reply : json)
  | SummaryFailed
  | SummaryNoLLM (title journal : string).

Record Paper : Type := {
  title : string;
  authors : list string;
  journal : string;
  link : string;
  abstract : string;
  published : Z;
  source : string;
  source_group : string;
  doi : option string;
  keyword_hits : Z;
  group_hits : Z;
  relevance_score : option Z;
  relevance_reason : option string;
  summary : option Summary
}.

(** The arguments the collectors give to [Paper(...)]. *)
Record Entry : Type := {
  e_title : string;
  e_authors : list string;
  e_journal : string;
  e_link : string;
  e_abstract : string;
  e_published : Z;
  e_source : string;
  e_source_group : string;
  e_doi : option string
}.

(** [Paper(title=..., ..., doi=doi)]: the annotations take the defaults of
    the dataclass. *)
Definition new_paper (e : Entry) : Paper :=
  {| title := e_title e; authors := e_authors e; journal := e_journal e;
     link := e_link e; abstract := e_abstract e; published := e_published e;
     source := e_source e; source_group := e_source_group e; doi := e_doi e;
     keyword_hits := 0; group_hits := 0; relevance_score := None;
     relevance_reason := None; summary := None |}.

(** The assignments to the mutable annotations. *)
Definition set_hits (kw gr : Z) (p : Paper) : Paper :=
  {| title := title p; authors := authors p; journal := journal p;
     link := link p; abstract := abstract p; published := published p;
     source := source p; source_group := source_group p; doi := doi p;
     keyword_hits := kw; group_hits := gr;
     relevance_score := relevance_score p;
     relevance_reason := relevance_reason p; summary := summary p |}.

Definition set_relevance (score : Z) (reason : string) (p : Paper) : Paper :=
  {| title := title p; authors := authors p; journal := journal p;
     link := link p; abstract := abstract p; published := published p;
     source := source p; source_group := source_group p; doi := doi p;
     keyword_hits := keyword_hits p; group_hits := group_hits p;
     relevance_score := Some score;
     relevance_reason := Some reason; summary := summary p |}.

Definition set_summary (s : Summary) (p : Paper) : Paper :=
  {| title := title p; authors := authors p; journal := journal p;
     link := link p; abstract := abstract p; published := published p;
     source := source p; source_group := source_group p; doi := doi p;
     keyword_hits := keyword_hits p; group_hits := group_hits p;
     relevance_score := relevance_score p;
     relevance_reason := relevance_reason p; summary := Some s |}.

(** The state file: [{"last_run": ..., "sent_ids": [...]}].  A missing or
    null [last_run] is [None]; a missing [sent_ids] reads as the empty list. *)
Record State : Type := {
  last_run : option string;
  sent_ids : list string
}.

(** The keys of the configuration that the pipeline reads.  A key with a
    default in the code is an option: [None] is a missing key. *)
Record Config : Type := {
  lookback_hours : option Z;
  include_preprints : option bool;
  keywords : list string;
  required_groups : list (list string);
  min_groups_matched : option Z;
  exclude_title_prefixes : list string;
  exclude_keywords : list string;
  min_keyword_hits : option Z;
  max_llm_eval : option Z;
  max_papers : option Z;
  llm_require : bool;
  llm_min_relevance_score : option json;
  source_weight : gmap string Z;
  subject_prefix : string;
  from_name : string
}.

Record Args : Type := {
  no_email : bool;
  no_llm : bool;
  dry_run : bool
}.

(** What one run gets from outside. *)
Record Env : Type := {
  (** [datetime.now(timezone.utc)] *)
  now_utc : Z;
  (** what the four collector calls return *)
  rss_entries : list Entry;
  nature_entries : list Entry;
  elsevier_entries : list Entry;
  arxiv_entries : list Entry;
  (** whether [DEEPSEEK_API_KEY] is set, so that [build_client] returns a client *)
  api_key : bool;
  (** the result of the [k]-th call of [llm_relevance]; [None] is an exception *)
  relevance_reply : nat -> Paper -> option json;
  (** the result of the [k]-th call of [llm_summary]; [None] is an exception *)
  summary_reply : nat -> Paper -> option json;
  (** whether [send_email] goes through; otherwise it raises *)
  smtp_ok : bool
}.

(** What [build_email] renders: the papers and the window. *)
Record Email : Type := {
  em_papers : list Paper;
  em_window_start : Z;
  em_window_end : Z;
  em_subject_prefix : string
}.

(** The world a run acts on: the state file, if it exists, and the
    messages handed to the mail server, with their sender name. *)
Record World : Type := {
  state_file : option State;
  outbox : list (Email * string)
}.

Inductive exn : Type :=
  | LLMRequired
  | SMTPError
  | MinScoreError.

Inductive result (A : Type) : Type :=
  | Done (a : A)
  | Raised (e : exn).
Arguments Done {A} a.
Arguments Raised {A} e.

(** Computations that read and write the world and may raise. *)
Definition M (A : Type) : Type := World -> result A * World.

Definition ret {A} (a : A) : M A := fun w => (Done a, w).
Definition raise {A} (e : exn) : M A := fun w => (Raised e, w).
Definition bind {A B} (m : M A) (k : A -> M B) : M B :=
  fun w => match m w with
           | (Done a, w') => k a w'
           | (Raised e, w') => (Raised e, w')
           end.
Definition when (b : bool) (m : M unit) : M unit := if b then m else ret tt.

Notation "'let*' x := m 'in' k" := (bind m (fun x => k))
  (at level 10, x name, m at level 100, k at level 200).
Notation "m ;;; k" := (bind m (fun _ => k))
  (at level 100, k at level 200, right associativity).

(** ** The pipeline stages *)

Import PyStr PyList.

(** [not l] for a list. *)
Definition is_nil {A} (l : list A) : bool :=
  match l with [] => true | _ :: _ => false end.

Definition normalize_title (title : string) : string :=
  let title := lower title in
  let title := sub_non_alnum title in
  title.

(** The fingerprint, as [dedupe] and the state update both compute it:
    [if p.doi] holds for a doi that is neither [None] nor empty. *)
Definition fingerprint (p : Paper) : string :=
  match doi p with
  | Some d =>
      if is_empty d then "title:" +:+ normalize_title (title p)
      else "doi:" +:+ strip (lower d)
  | None => "title:" +:+ normalize_title (title p)
  end.

Fixpoint dedupe_loop (papers : list Paper) (seen : gset string)
    (unique : list Paper) : list Paper :=
  match papers with
  | [] => unique
  | p :: papers' =>
      let fp := fingerprint p in
      if is_empty fp || bool_decide (fp ∈ seen)
      then dedupe_loop papers' seen unique
      else dedupe_loop papers' ({[fp]} ∪ seen) (unique ++ [p])
  end.

Definition dedupe (papers : list Paper) (sent_ids : list string) : list Paper :=
  let seen : gset string := list_to_set sent_ids in
  dedupe_loop papers seen [].

Definition filter_by_date (papers : list Paper) (start : Z) : list Paper :=
  List.filter (fun p => published p >=? start) papers.

Definition keyword_score (text : string) (keywords : list string) : Z :=
  let text_low := lower text in
  foldl (fun score kw => if contains text_low (lower kw) then score + 1 else score)
        0 keywords.

Definition group_score (text : string) (groups : list (list string)) : Z :=
  if is_nil groups then 0 else
  let text_low := lower text in
  foldl (fun matched any_list =>
           if existsb (fun kw => contains text_low (lower kw)) any_list
           then matched + 1 else matched)
        0 groups.

Definition should_exclude_title (title : string) (prefixes : list string) : bool :=
  if is_nil prefixes then false else
  let title_low := lower (strip title) in
  existsb (fun prefix => startswith title_low (lower prefix)) prefixes.

(** Lines 467 to 478: the four collector calls. *)
Definition collect (cfg : Config) (env : Env) : list Paper :=
  let papers := [] in
  let papers := papers ++ map new_paper (rss_entries env) in
  let papers := papers ++ map new_paper (nature_entries env) in
  let papers := papers ++ map new_paper (elsevier_entries env) in
  if default true (include_preprints cfg)
  then papers ++ map new_paper (arxiv_entries env)
  else papers.

(** [timedelta(hours=h)], in microseconds. *)
Definition hours (h : Z) : Z := h * 3600000000.

(** Lines 458 to 465. *)
Definition window_start (rt : Runtime) (cfg : Config) (state : State) (now : Z) : Z :=
  let lookback := now - hours (default 36 (lookback_hours cfg)) in
  match last_run state with
  | Some s =>
      if is_empty s then lookback
      else match parse_date rt s with
           | Some t => t
           | None => lookback
           end
  | None => lookback
  end.

(** Lines 480 and 481. *)
Definition candidates (cfg : Config) (env : Env) (state : State) (start : Z) : list Paper :=
  let papers := collect cfg env in
  let papers := filter_by_date papers start in
  let papers := dedupe papers (sent_ids state) in
  papers.

(** Lines 488 to 499: exclusions and the two annotations. *)
Fixpoint keyword_loop (cfg : Config) (papers filtered : list Paper) : list Paper :=
  match papers with
  | [] => filtered
  | p :: papers' =>
      if should_exclude_title (title p) (exclude_title_prefixes cfg)
      then keyword_loop cfg papers' filtered
      else
        let text := title p +:+ " " +:+ abstract p in
        let p := set_hits (keyword_score text (keywords cfg))
                          (group_score text (required_groups cfg)) p in
        let text_low := lower text in
        if negb (is_nil (exclude_keywords cfg))
           && existsb (fun k => contains text_low (lower k)) (exclude_keywords cfg)
        then keyword_loop cfg papers' filtered
        else keyword_loop cfg papers' (filtered ++ [p])
  end.

Definition keyword_stage (cfg : Config) (papers : list Paper) : list Paper :=
  keyword_loop cfg papers [].

(** Lines 501 to 504: the minimum-hit thresholds. *)
Definition threshold_stage (cfg : Config) (papers : list Paper) : list Paper :=
  let min_groups := default 0 (min_groups_matched cfg) in
  let min_hits := default 1 (min_keyword_hits cfg) in
  let papers :=
    List.filter (fun p => (keyword_hits p >=? min_hits) || is_nil (keywords cfg)) papers in
  if min_groups >? 0
  then List.filter (fun p => group_hits p >=? min_groups) papers
  else papers.

(** The body of the loop of lines 530 to 536 for one paper: [data] is what
    [llm_relevance] returned, [None] when it raised.  A reply that is not a
    dict makes [data.get] raise, a score that [int] refuses makes [int]
    raise; either way the paper is left as it was. *)
Definition relevance_update (rt : Runtime) (data : option json) (p : Paper) : Paper :=
  match data with
  | Some (JObj kvs) =>
      match py_int rt (dict_get kvs "score" (JInt 0)) with
      | Some score => set_relevance score (py_str rt (dict_get kvs "reason" (JStr ""))) p
      | None => p
      end
  | _ => p
  end.

(** Lines 527 to 536: the papers of [papers[:max_eval]] are updated in
    place, the others are not visited. *)
Definition relevance_stage (rt : Runtime) (cfg : Config) (env : Env)
    (papers : list Paper) : list Paper :=
  let max_eval := default 30 (max_llm_eval cfg) in
  imap (fun k p => relevance_update rt (relevance_reply env k p) p)
       (slice_to max_eval papers)
  ++ slice_from max_eval papers.

Definition final_score (cfg : Config) (p : Paper) : Z :=
  let base := default (keyword_hits p) (relevance_score p) in
  let weight := default 0 (source_weight cfg !! source_group p) in
  base + weight.

(** Lines 552 to 572. *)
Definition summary_stage (env : Env) (client : bool) (papers : list Paper) : list Paper :=
  if client
  then imap (fun k p =>
               match summary_reply env k p with
               | Some reply => set_summary (SummaryReply reply) p
               | None => set_summary SummaryFailed p
               end) papers
  else map (fun p => set_summary (SummaryNoLLM (title p) (journal p)) p) papers.

(** [None if args.no_llm else build_client()], as a truth value. *)
Definition client_of (args : Args) (env : Env) : bool :=
  if no_llm args then false else api_key env.

(** Line 547: [int(llm_cfg.get("min_relevance_score", 0))].  [None] is the
    exception of [int] on a value it refuses; a float is truncated. *)
Definition min_llm_score_of (rt : Runtime) (cfg : Config) : option Z :=
  py_int rt (default (JInt 0) (llm_min_relevance_score cfg)).

(** Lines 546 to 550: the final sort, the relevance threshold and the cut,
    for the value [min_llm_score] of line 547. *)
Definition rank_and_cut (cfg : Config) (client : bool) (min_llm_score : Z)
    (papers : list Paper) : list Paper :=
  let papers := sort_desc (final_score cfg) papers in
  let papers :=
    if client && (min_llm_score >? 0)
    then List.filter (fun p => default 0 (relevance_score p) >=? min_llm_score) papers
    else papers in
  slice_to (default 10 (max_papers cfg)) papers.

(** Lines 522 to 572 once the client and the value [min_llm_score] of line
    547 are known: the list given to [build_email] and to the state update. *)
Definition selected (rt : Runtime) (cfg : Config) (env : Env) (client : bool)
    (min_llm_score : Z) (papers : list Paper) : list Paper :=
  let papers := sort_desc keyword_hits papers in
  let papers := if client then relevance_stage rt cfg env papers else papers in
  let papers := rank_and_cut cfg client min_llm_score papers in
  summary_stage env client papers.

(** Lines 483 to 504 on the candidates. *)
Definition filtered (cfg : Config) (env : Env) (state : State) (start : Z) : list Paper :=
  threshold_stage cfg (keyword_stage cfg (candidates cfg env state start)).

(** The list a run gives to [build_email]: empty on the branch of line
    507, and empty when line 547 raises, where no list is given. *)
Definition digest (rt : Runtime) (args : Args) (cfg : Config) (env : Env)
    (state : State) : list Paper :=
  let papers := filtered cfg env state (window_start rt cfg state (now_utc env)) in
  if is_nil papers then []
  else
    match min_llm_score_of rt cfg with
    | Some min_llm_score =>
        selected rt cfg env (client_of args env) min_llm_score papers
    | None => []
    end.

(** ** The fingerprint rule in the words of the specification *)

(** Every character that is not an ASCII letter or digit is removed. *)
Fixpoint keep_ascii_alnum (s : string) : string :=
  match s with
  | EmptyString => EmptyString
  | String c s' =>
      if is_ascii_alnum c then String c (keep_ascii_alnum s') else keep_ascii_alnum s'
  end.

(** Two titles that differ only in punctuation, case or spacing: one is
    obtained from the other by inserting or removing characters that are
    not ASCII letters or digits, and by changing the case of characters. *)
Inductive same_title : string -> string -> Prop :=
  | same_title_nil : same_title "" ""
  | same_title_skip_l c s t :
      is_ascii_alnum c = false -> same_title s t -> same_title (String c s) t
  | same_title_skip_r c s t :
      is_ascii_alnum c = false -> same_title s t -> same_title s (String c t)
  | same_title_char c d s t :
      lower_char c = lower_char d -> same_title s t ->
      same_title (String c s) (String d t).

(** The paper at position [i] of [papers] is new: its fingerprint is not
    in the sent ones and no earlier paper of the list has it. *)
Definition first_unseen (sent_ids : list string) (papers : list Paper)
    (i : nat) (p : Paper) : bool :=
  bool_decide (fingerprint p ∉ sent_ids)
  && bool_decide (fingerprint p ∉ map fingerprint (take i papers)).

(** A paper passes the minimum-hit thresholds. *)
Definition passes_thresholds (cfg : Config) (p : Paper) : Prop :=
  (default 1 (min_keyword_hits cfg) <= keyword_hits p \/ keywords cfg = [])
  /\ (0 < default 0 (min_groups_matched cfg) ->
      default 0 (min_groups_matched cfg) <= group_hits p).

#[global] Instance passes_thresholds_dec cfg p : Decision (passes_thresholds cfg p).
Proof. unfold passes_thresholds. apply _. Defined.

(** A paper without a usable doi: [p.doi] is [None] or empty. *)
Definition no_doi (p : Paper) : Prop := doi p = None \/ doi p = Some "".

(** ** The state store and the mail *)

Definition load_state : M State :=
  fun w => (Done (default {| last_run := None; sent_ids := [] |} (state_file w)), w).

Definition save_state (state : State) : M unit :=
  fun w => (Done tt, {| state_file := Some state; outbox := outbox w |}).

Definition send_email (env : Env) (email : Email) (from_name : string) : M unit :=
  fun w =>
    if smtp_ok env
    then (Done tt, {| state_file := state_file w;
                      outbox := outbox w ++ [(email, from_name)] |})
    else (Raised SMTPError, w).

Definition build_email (papers : list Paper) (window_start window_end : Z)
    (subject_prefix : string) : Email :=
  {| em_papers := papers; em_window_start := window_start;
     em_window_end := window_end; em_subject_prefix := subject_prefix |}.

(** Lines 585 to 591: the new [sent_ids]. *)
Definition update_sent_ids (sent_ids : list string) (papers : list Paper) : list string :=
  let sent_ids := sent_ids ++ map fingerprint papers in
  last_n 5000 sent_ids.

(** ** The run *)

Definition main (rt : Runtime) (args : Args) (cfg : Config) (env : Env) : M Z :=
  let* state := load_state in
  let start := window_start rt cfg state (now_utc env) in
  let papers := filtered cfg env state start in
  if is_nil papers then
    let email := build_email [] start (now_utc env) (subject_prefix cfg) in
    when (negb (no_email args) && negb (dry_run args))
         (send_email env email (from_name cfg)) ;;;
    when (negb (dry_run args))
         (save_state {| last_run := Some (isoformat rt (now_utc env));
                        sent_ids := sent_ids state |}) ;;;
    ret 0
  else
    let client := client_of args env in
    if llm_require cfg && negb client then raise LLMRequired
    else
      match min_llm_score_of rt cfg with
      | None => raise MinScoreError
      | Some min_llm_score =>
          let papers := selected rt cfg env client min_llm_score papers in
          let email := build_email papers start (now_utc env) (subject_prefix cfg) in
          when (negb (no_email args) && negb (dry_run args))
               (send_email env email (from_name cfg)) ;;;
          when (negb (dry_run args))
               (save_state {| last_run := Some (isoformat rt (now_utc env));
                              sent_ids := update_sent_ids (sent_ids state) papers |}) ;;;
          ret 0
      end.

(** The stored state as [load_state] reads it, and a sequence of runs. *)
Definition stored (w : World) : State :=
  default {| last_run := None; sent_ids := [] |} (state_file w).

Record Run : Type := {
  run_args : Args;
  run_cfg : Config;
  run_env : Env
}.

Definition exec (rt : Runtime) (r : Run) (w : World) : World :=
  snd (main rt (run_args r) (run_cfg r) (run_env r) w).

Definition run_all (rt : Runtime) (runs : list Run) (w : World) : World :=
  foldl (fun w r => exec rt r w) w runs.

Definition fresh_world : World := {| state_file := None; outbox := [] |}.

(** The fingerprints a run appends to the stored list: those of its digest
    when it reaches the state update of line 584, none when it is a dry
    run or stops on an exception before. *)
Definition appended (rt : Runtime) (r : Run) (w : World) : list string :=
  match main rt (run_args r) (run_cfg r) (run_env r) w with
  | (Done _, _) =>
      if dry_run (run_args r) then []
      else map fingerprint (digest rt (run_args r) (run_cfg r) (run_env r) (stored w))
  | (Raised _, _) => []
  end.

Fixpoint appended_by (rt : Runtime) (runs : list Run) (w : World) : list (list string) :=
  match runs with
  | [] => []
  | r :: runs' => appended rt r w :: appended_by rt runs' (exec rt r w)
  end.

(** ** Test data *)

Module Samples.

Definition rt0 : Runtime :=
  {| int_of_str := fun _ => None; py_str := fun _ => "";
     parse_date := fun _ => None; isoformat := fun _ => "now" |}.

(** A date parser that reads one string. *)
Definition rt1 : Runtime :=
  {| int_of_str := fun _ => None; py_str := fun _ => "";
     parse_date := fun s =>
       if String.eqb s "1970-01-01T00:00:00.000007+00:00" then Some 7 else None;
     isoformat := fun _ => "now" |}.

Definition entry (t : string) (d : option string) (pub : Z) : Entry :=
  {| e_title := t; e_authors := []; e_journal := "J"; e_link := "";
     e_abstract := "grid resilience"; e_published := pub; e_source := "S";
     e_source_group := "rss"; e_doi := d |}.

Definition cfg1 (kws : list string) (maxp min_llm : option Z) : Config :=
  {| lookback_hours := None; include_preprints := None; keywords := kws;
     required_groups := []; min_groups_matched := None;
     exclude_title_prefixes := []; exclude_keywords := [];
     min_keyword_hits := None; max_llm_eval := None; max_papers := maxp;
     llm_require := false; llm_min_relevance_score := JInt <$> min_llm;
     source_weight := ∅; subject_prefix := "[digest]"; from_name := "Bot" |}.

Definition cfg0 : Config := cfg1 [] None None.

Definition state0 : State := {| last_run := None; sent_ids := [] |}.

(** Two papers with one fingerprint, published at 0 and at 100. *)
Definition old_and_new : list Entry :=
  [entry "Grid" None 0; entry "grid!" None 100].

(** Two papers with different fingerprints, both published at 100. *)
Definition two_new : list Entry :=
  [entry "Grid" None 100; entry "Storage" (Some "10.1/ABC") 100].

Definition env0 (now : Z) (rss : list Entry) (reply : option json) : Env :=
  {| now_utc := now; rss_entries := rss; nature_entries := [];
     elsevier_entries := []; arxiv_entries := []; api_key := true;
     relevance_reply := fun _ _ => reply; summary_reply := fun _ _ => None;
     smtp_ok := true |}.

Definition args0 (dry : bool) : Args :=
  {| no_email := false; no_llm := false; dry_run := dry |}.

(** A world with a state file and one message already sent. *)
Definition stored_world : World :=
  {| state_file := Some {| last_run := Some "then"; sent_ids := ["title:grid"] |};
     outbox := [({| em_papers := []; em_window_start := 0; em_window_end := 1;
                    em_subject_prefix := "[digest]" |}, "Bot")] |}.

End Samples.

(** * More of the program, and the words for its properties *)

(** Every character of [s] passes [f]. *)
Fixpoint string_forall (f : ascii -> bool) (s : string) : bool :=
  match s with
  | EmptyString => true
  | String c s' => f c && string_forall f s'
  end.

(** The text the keyword loop scores: [f"{p.title} {p.abstract}"]. *)
Definition paper_text (p : Paper) : string := title p +:+ " " +:+ abstract p.

(** [kw.lower() in text.lower()]: the test of lines 202, 215 and 496. *)
Definition matches (text kw : string) : bool := contains (lower text) (lower kw).

(** The paper is dropped by one of the two [continue] of the keyword loop. *)
Definition excluded (cfg : Config) (p : Paper) : bool :=
  should_exclude_title (title p) (exclude_title_prefixes cfg)
  || existsb (matches (paper_text p)) (exclude_keywords cfg).

(** The two assignments of lines 493 and 494. *)
Definition annotate (cfg : Config) (p : Paper) : Paper :=
  set_hits (keyword_score (paper_text p) (keywords cfg))
           (group_score (paper_text p) (required_groups cfg)) p.

(** The fields of a paper that are set at its creation. *)
Definition entry_of (p : Paper) : Entry :=
  {| e_title := title p; e_authors := authors p; e_journal := journal p;
     e_link := link p; e_abstract := abstract p; e_published := published p;
     e_source := source p; e_source_group := source_group p; e_doi := doi p |}.

(** ** [strip_html] *)

(** [s] has a ">". *)
Fixpoint has_gt (s : string) : bool :=
  match s with
  | EmptyString => false
  | String c s' => Ascii.eqb c ">" || has_gt s'
  end.

(** The pattern [<[^>]+>] matches at a "<" that [s] follows: [s] begins
    with a character other than ">" and has a ">" further on. *)
Definition tag_opens (s : string) : bool :=
  match s with
  | EmptyString => false
  | String c s' => negb (Ascii.eqb c ">") && has_gt s'
  end.

(** [re.sub(r"<[^>]+>", " ", s)], from left to right.  [inside] tells that
    the scan is within a match, which ends at the next ">". *)
Fixpoint sub_tags_from (inside : bool) (s : string) : string :=
  match s with
  | EmptyString => EmptyString
  | String c s' =>
      if inside then
        if Ascii.eqb c ">" then String " " (sub_tags_from false s')
        else sub_tags_from true s'
      else if Ascii.eqb c "<" && tag_opens s' then sub_tags_from true s'
      else String c (sub_tags_from false s')
  end.

Definition sub_tags (s : string) : string := sub_tags_from false s.

(** [re.sub(r"\s+", " ", s)], from left to right.  [in_run] tells that the
    scan is within a run of whitespace, whose space is already written. *)
Fixpoint sub_spaces_from (in_run : bool) (s : string) : string :=
  match s with
  | EmptyString => EmptyString
  | String c s' =>
      if is_space c then
        if in_run then sub_spaces_from true s'
        else String " " (sub_spaces_from true s')
      else String c (sub_spaces_from false s')
  end.

Definition sub_spaces (s : string) : string := sub_spaces_from false s.

Definition strip_html (text : string) : string :=
  if is_empty text then ""
  else
    let text := sub_tags text in
    let text := sub_spaces text in
    strip text.

(** The pattern [<[^>]+>] matches somewhere in [s]. *)
Fixpoint has_tag (s : string) : bool :=
  match s with
  | EmptyString => false
  | String c s' => (Ascii.eqb c "<" && tag_opens s') || has_tag s'
  end.

Definition starts_with_space (s : string) : bool :=
  match s with
  | EmptyString => false
  | String c _ => is_space c
  end.

(** Every whitespace character of [s] is a space that no whitespace follows. *)
Fixpoint single_spaced (s : string) : bool :=
  match s with
  | EmptyString => true
  | String c s' =>
      (if is_space c then Ascii.eqb c " " && negb (starts_with_space s') else true)
      && single_spaced s'
  end.

(** ** The collectors *)

(** The keys of a feed entry that the collectors read, as [feedparser]
    gives them; [None] is a missing key.  An author is the "name" of one
    dict of [entry.authors]. *)
Record FeedEntry : Type := {
  fe_title : option string;
  fe_authors : list (option string);
  fe_link : option string;
  fe_summary : option string;
  fe_description : option string;
  fe_published : option string;
  fe_updated : option string;
  fe_pubDate : option string;
  fe_doi : option string;
  fe_dc_identifier : option string
}.

(** [feedparser.parse(content)]: the title of the feed and its entries. *)
Record Feed : Type := {
  feed_title : option string;
  feed_entries : list FeedEntry
}.

(** One source of the configuration: [{url, name?, group?}]. *)
Record Source : Type := {
  src_url : string;
  src_name : option string;
  src_group : option string
}.

(** [if v:] for a value that is a string or missing. *)
Definition truthy (v : option string) : bool :=
  match v with
  | Some s => negb (is_empty s)
  | None => false
  end.

(** [a or b] *)
Definition or_else (a : option string) (b : string) : string :=
  if truthy a then default "" a else b.

(** The loop of [parse_entry_date] over the values of its three keys.
    [parse] is [dateparser.parse] followed by the conversion to UTC, a naive
    date being read as UTC; [None] is an exception. *)
Fixpoint first_date (parse : string -> option Z) (vals : list (option string)) : option Z :=
  match vals with
  | [] => None
  | val :: vals' =>
      if truthy val then
        match parse (default "" val) with
        | Some dt => Some dt
        | None => first_date parse vals'
        end
      else first_date parse vals'
  end.

Definition parse_entry_date (parse : string -> option Z)
    (published updated pubDate : option string) : option Z :=
  first_date parse [published; updated; pubDate].

(** Lines 109 and 156. *)
Definition entry_authors (entry : FeedEntry) : list string :=
  map (fun a => strip (default "" a)) (List.filter truthy (fe_authors entry)).

(** Lines 115 to 120. *)
Definition entry_doi (entry : FeedEntry) : option string :=
  if truthy (fe_doi entry) then fe_doi entry
  else if truthy (fe_dc_identifier entry) then fe_dc_identifier entry
  else None.

(** Lines 106 to 133 for one entry; [None] is the [continue] of an entry
    without title.  [now] is the clock at that entry. *)
Definition rss_paper (parse : string -> option Z) (now : Z)
    (journal_name source group : string) (entry : FeedEntry) : option Paper :=
  let title := strip (default "" (fe_title entry)) in
  if is_empty title then None
  else
    let authors := entry_authors entry in
    let link := default "" (fe_link entry) in
    let abstract :=
      strip_html (or_else (fe_summary entry) (default "" (fe_description entry))) in
    let published :=
      default now (parse_entry_date parse (fe_published entry) (fe_updated entry)
                                    (fe_pubDate entry)) in
    Some (new_paper
            {| e_title := title; e_authors := authors; e_journal := journal_name;
               e_link := link; e_abstract := abstract; e_published := published;
               e_source := source; e_source_group := group;
               e_doi := entry_doi entry |}).

Fixpoint rss_entries_loop (parse : string -> option Z) (clock : nat -> Z)
    (journal_name source group : string) (j : nat)
    (entries : list FeedEntry) (papers : list Paper) : list Paper :=
  match entries with
  | [] => papers
  | entry :: entries' =>
      match rss_paper parse (clock j) journal_name source group entry with
      | None =>
          rss_entries_loop parse clock journal_name source group (S j) entries' papers
      | Some p =>
          rss_entries_loop parse clock journal_name source group (S j) entries'
                           (papers ++ [p])
      end
  end.

(** [fetch i url] is what the [i]-th source gives: its parsed feed, or
    [None] when [fetch_url] raises.  [clock i j] is the clock at the [j]-th
    entry of the [i]-th source. *)
Fixpoint collect_rss_loop (fetch : nat -> string -> option Feed)
    (parse : string -> option Z) (clock : nat -> nat -> Z)
    (default_group : string) (i : nat) (sources : list Source)
    (papers : list Paper) : list Paper :=
  match sources with
  | [] => papers
  | src :: sources' =>
      let url := src_url src in
      let group := default default_group (src_group src) in
      match fetch i url with
      | None => collect_rss_loop fetch parse clock default_group (S i) sources' papers
      | Some feed =>
          let journal_name :=
            or_else (src_name src) (default "Unknown Source" (feed_title feed)) in
          let source := default journal_name (src_name src) in
          collect_rss_loop fetch parse clock default_group (S i) sources'
            (rss_entries_loop parse (clock i) journal_name source group 0
                              (feed_entries feed) papers)
      end
  end.

Definition collect_rss_sources (fetch : nat -> string -> option Feed)
    (parse : string -> option Z) (clock : nat -> nat -> Z)
    (sources : list Source) (default_group : string) : list Paper :=
  collect_rss_loop fetch parse clock default_group 0 sources [].

(** [sep.join(l)] *)
Fixpoint join (sep : string) (l : list string) : string :=
  match l with
  | [] => ""
  | [x] => x
  | x :: l' => x +:+ sep +:+ join sep l'
  end.

(** [s.replace("\n", " ")] *)
Fixpoint replace_newlines (s : string) : string :=
  match s with
  | EmptyString => EmptyString
  | String c s' =>
      String (if Ascii.eqb c "010" then " "%char else c) (replace_newlines s')
  end.

(** Lines 140 to 144. *)
Definition arxiv_url (categories : list string) (max_results : Z) : string :=
  let query := join " OR " (map (fun c => "cat:" +:+ c) categories) in
  "http://export.arxiv.org/api/query?" +:+ "search_query=" +:+ query
  +:+ "&sortBy=submittedDate&sortOrder=descending&max_results="
  +:+ NilZero.string_of_int (Z.to_int max_results).

(** Lines 153 to 174 for one entry. *)
Definition arxiv_paper (parse : string -> option Z) (now : Z) (use_updated : bool)
    (entry : FeedEntry) : option Paper :=
  let title := strip (replace_newlines (default "" (fe_title entry))) in
  if is_empty title then None
  else
    let authors := entry_authors entry in
    let link := default "" (fe_link entry) in
    let abstract := strip_html (default "" (fe_summary entry)) in
    let published :=
      default now
        (parse_entry_date parse
           (Some (default "" (if use_updated then fe_updated entry
                              else fe_published entry)))
           None None) in
    Some (new_paper
            {| e_title := title; e_authors := authors; e_journal := "arXiv";
               e_link := link; e_abstract := abstract; e_published := published;
               e_source := "arXiv"; e_source_group := "arxiv"; e_doi := None |}).

Fixpoint arxiv_entries_loop (parse : string -> option Z) (clock : nat -> Z)
    (use_updated : bool) (j : nat) (entries : list FeedEntry)
    (papers : list Paper) : list Paper :=
  match entries with
  | [] => papers
  | entry :: entries' =>
      match arxiv_paper parse (clock j) use_updated entry with
      | None => arxiv_entries_loop parse clock use_updated (S j) entries' papers
      | Some p =>
          arxiv_entries_loop parse clock use_updated (S j) entries' (papers ++ [p])
      end
  end.

(** [fetch url] is the parsed reply of the arXiv API, or [None] when
    [fetch_url] raises. *)
Definition collect_arxiv (fetch : string -> option Feed)
    (parse : string -> option Z) (clock : nat -> Z)
    (categories : list string) (max_results : Z) (use_updated : bool) : list Paper :=
  if is_nil categories then []
  else
    match fetch (arxiv_url categories max_results) with
    | None => []
    | Some feed => arxiv_entries_loop parse clock use_updated 0 (feed_entries feed) []
    end.

(** What one source adds to the papers. *)
Definition source_papers (fetch : nat -> string -> option Feed)
    (parse : string -> option Z) (clock : nat -> nat -> Z)
    (default_group : string) (i : nat) (src : Source) : list Paper :=
  match fetch i (src_url src) with
  | None => []
  | Some feed =>
      let journal_name :=
        or_else (src_name src) (default "Unknown Source" (feed_title feed)) in
      rss_entries_loop parse (clock i) journal_name
        (default journal_name (src_name src))
        (default default_group (src_group src)) 0 (feed_entries feed) []
  end.

(** The character is not a line feed. *)
Definition not_newline (c : ascii) : bool := negb (Ascii.eqb c "010").

(** The value of a key gives no date: it is missing, empty, or not parsed. *)
Definition no_date (parse : string -> option Z) (val : option string) : Prop :=
  truthy val = false \/ parse (default "" val) = None.

(** ** [extract_json] *)

(** The part of [s] from its first "{" on. *)
Fixpoint from_first_brace (s : string) : option string :=
  match s with
  | EmptyString => None
  | String c s' => if Ascii.eqb c "{" then Some s else from_first_brace s'
  end.

(** The part of [s] up to its last "}", included. *)
Fixpoint upto_last_brace (s : string) : option string :=
  match s with
  | EmptyString => None
  | String c s' =>
      match upto_last_brace s' with
      | Some r => Some (String c r)
      | None => if Ascii.eqb c "}" then Some (String c EmptyString) else None
      end
  end.

(** [re.search(r"\{.*\}", s, re.S)]: the match goes from the first "{" to
    the last "}" after it; [None] when there is no such pair. *)
Definition search_braces (s : string) : option string :=
  match from_first_brace s with
  | Some r => upto_last_brace r
  | None => None
  end.

(** [loads] is [json.loads]; [None] is an exception, of [json.loads] or
    the [ValueError] of line 247. *)
Definition extract_json (loads : string -> option json) (content : string) : option json :=
  let content := strip content in
  match loads content with
  | Some v => Some v
  | None =>
      match search_braces content with
      | None => None
      | Some m => loads m
      end
  end.

Definition not_open_brace (c : ascii) : bool := negb (Ascii.eqb c "{").
Definition not_close_brace (c : ascii) : bool := negb (Ascii.eqb c "}").

(** ** [send_email] *)

(** The five environment variables; [None] is an unset variable. *)
Record MailEnv : Type := {
  SMTP_HOST : option string;
  SMTP_PORT : option string;
  SMTP_USER : option string;
  SMTP_PASS : option string;
  MAIL_TO : option string
}.

(** Whether each call to the mail server goes through; otherwise it raises. *)
Record MailServer : Type := {
  connect_ok : bool;
  starttls_ok : bool;
  login_ok : bool;
  sendmail_ok : bool;
  quit_ok : bool
}.

(** The calls [send_email] makes to [smtplib], with the headers "From" and
    "To" of the message for [sendmail]. *)
Inductive smtp_call : Type :=
  | SmtpSSL (host : string) (port : Z)
  | Smtp (host : string) (port : Z)
  | StartTLS
  | Login (user pass : string)
  | SendMail (sender : string) (recipients : list string)
             (header_from header_to : string)
  | Quit.

Inductive mail_exn : Type :=
  | PortValueError
  | IncompleteSettings
  | SmtpException.

(** [s.split(sep)] for a separator of one character. *)
Fixpoint split_on (sep : ascii) (s : string) : list string :=
  match s with
  | EmptyString => [EmptyString]
  | String c s' =>
      if Ascii.eqb c sep then EmptyString :: split_on sep s'
      else match split_on sep s' with
           | x :: rest => String c x :: rest
           | [] => [String c EmptyString]
           end
  end.

(** Line 434: [[addr.strip() for addr in mail_to.split(",")]]. *)
Definition recipients_of (mail_to : string) : list string :=
  map strip (split_on "," mail_to).

(** The calls made, in order, and the exception raised, if any. *)
Definition send_email_calls (rt : Runtime) (menv : MailEnv) (srv : MailServer)
    (from_name : string) : list smtp_call * option mail_exn :=
  match int_of_str rt (default "0" (SMTP_PORT menv)) with
  | None => ([], Some PortValueError)
  | Some smtp_port =>
      if negb (truthy (SMTP_HOST menv)) || (smtp_port =? 0)
         || negb (truthy (SMTP_USER menv)) || negb (truthy (SMTP_PASS menv))
         || negb (truthy (MAIL_TO menv))
      then ([], Some IncompleteSettings)
      else
        let smtp_host := default "" (SMTP_HOST menv) in
        let smtp_user := default "" (SMTP_USER menv) in
        let smtp_pass := default "" (SMTP_PASS menv) in
        let mail_to := default "" (MAIL_TO menv) in
        let header_from := from_name +:+ " <" +:+ smtp_user +:+ ">" in
        let connect :=
          if smtp_port =? 465 then [SmtpSSL smtp_host smtp_port]
          else [Smtp smtp_host smtp_port] in
        if negb (connect_ok srv) then (connect, Some SmtpException)
        else
          let opened :=
            if smtp_port =? 465 then connect else connect ++ [StartTLS] in
          if negb (smtp_port =? 465) && negb (starttls_ok srv)
          then (opened, Some SmtpException)
          else
            let send :=
              SendMail smtp_user (recipients_of mail_to) header_from mail_to in
            let session :=
              if login_ok srv then [Login smtp_user smtp_pass; send]
              else [Login smtp_user smtp_pass] in
            (opened ++ session ++ [Quit],
             if login_ok srv && sendmail_ok srv && quit_ok srv then None
             else Some SmtpException)
  end.

Definition not_comma (c : ascii) : bool := negb (Ascii.eqb c ",").

Definition is_send (call : smtp_call) : bool :=
  match call with SendMail _ _ _ _ => true | _ => false end.

Definition is_login (call : smtp_call) : bool :=
  match call with Login _ _ => true | _ => false end.

(** ** More test data *)

Module MoreSamples.

(** A configuration whose exclusion keywords have an empty string. *)
Definition cfg_empty_exclusion : Config :=
  {| lookback_hours := None; include_preprints := None; keywords := ["grid"];
     required_groups := []; min_groups_matched := None;
     exclude_title_prefixes := []; exclude_keywords := ["erratum"; ""];
     min_keyword_hits := None; max_llm_eval := None; max_papers := None;
     llm_require := false; llm_min_relevance_score := None;
     source_weight := ∅; subject_prefix := "[digest]"; from_name := "Bot" |}.

Definition args_no_llm : Args :=
  {| no_email := false; no_llm := true; dry_run := false |}.

(** A clock text that parses back to the reading 100. *)
Definition rt_iso : Runtime :=
  {| int_of_str := fun _ => None; py_str := fun _ => "";
     parse_date := fun s =>
       if String.eqb s "1970-01-01T00:00:00.000100+00:00" then Some 100 else None;
     isoformat := fun _ => "1970-01-01T00:00:00.000100+00:00" |}.

Definition source_a : Source :=
  {| src_url := "https://a.example/feed"; src_name := Some "Journal A";
     src_group := None |}.

Definition source_b : Source :=
  {| src_url := "https://b.example/feed"; src_name := None;
     src_group := Some "nature" |}.

Definition feed_entry (t : option string) (pub upd : option string) : FeedEntry :=
  {| fe_title := t; fe_authors := [Some " A. Author "; None; Some ""];
     fe_link := None; fe_summary := Some "<p>Grid  resilience</p>";
     fe_description := None; fe_published := pub; fe_updated := upd;
     fe_pubDate := None; fe_doi := None; fe_dc_identifier := Some "10.1/ABC" |}.

Definition feed_b : Feed :=
  {| feed_title := Some "Feed B";
     feed_entries := [feed_entry (Some " Grid
resilience ") (Some "bad date") (Some "t7");
                      feed_entry (Some "  ") None None] |}.

(** The first source cannot be fetched, the second one can. *)
Definition fetch_second_only (i : nat) (url : string) : option Feed :=
  if String.eqb url "https://b.example/feed" then Some feed_b else None.

(** A date parser that reads one text. *)
Definition parse_t7 (s : string) : option Z :=
  if String.eqb s "t7" then Some 7 else None.

(** A reply with a JSON object in the middle, and a JSON parser that
    reads that object only. *)
Definition dq : string := String "034" EmptyString.

Definition score_json : string := "{" +:+ dq +:+ "score" +:+ dq +:+ ": 80}".

Definition score_reply : string := "  The score: " +:+ score_json +:+ ". Bye  ".

Definition loads_score (s : string) : option json :=
  if String.eqb s score_json then Some (JObj [("score", JInt 80)]) else None.

(** Settings of a mail server, and an [int] that reads two port numbers. *)
Definition rt_port : Runtime :=
  {| int_of_str := fun s =>
       if String.eqb s "587" then Some 587
       else if String.eqb s "0" then Some 0 else None;
     py_str := fun _ => ""; parse_date := fun _ => None;
     isoformat := fun _ => "now" |}.

Definition mail_env : MailEnv :=
  {| SMTP_HOST := Some "smtp.example"; SMTP_PORT := Some "587";
     SMTP_USER := Some "bot@example"; SMTP_PASS := Some "secret";
     MAIL_TO := Some "a@example, b@example ," |}.

Definition mail_env_no_host : MailEnv :=
  {| SMTP_HOST := None; SMTP_PORT := Some "587";
     SMTP_USER := Some "bot@example"; SMTP_PASS := Some "secret";
     MAIL_TO := Some "a@example" |}.

Definition server_ok : MailServer :=
  {| connect_ok := true; starttls_ok := true; login_ok := true;
     sendmail_ok := true; quit_ok := true |}.

Definition server_login_fails : MailServer :=
  {| connect_ok := true; starttls_ok := true; login_ok := false;
     sendmail_ok := true; quit_ok := true |}.

(** A configuration with the value [v] for [min_relevance_score]. *)
Definition cfg_min_score (v : json) : Config :=
  {| lookback_hours := None; include_preprints := None; keywords := [];
     required_groups := []; min_groups_matched := None;
     exclude_title_prefixes := []; exclude_keywords := [];
     min_keyword_hits := None; max_llm_eval := None; max_papers := None;
     llm_require := false; llm_min_relevance_score := Some v;
     source_weight := ∅; subject_prefix := "[digest]"; from_name := "Bot" |}.

(** A configuration that requires the LLM. *)
Definition cfg_llm_required : Config :=
  {| lookback_hours := None; include_preprints := None; keywords := [];
     required_groups := []; min_groups_matched := None;
     exclude_title_prefixes := []; exclude_keywords := [];
     min_keyword_hits := None; max_llm_eval := None; max_papers := None;
     llm_require := true; llm_min_relevance_score := None;
     source_weight := ∅; subject_prefix := "[digest]"; from_name := "Bot" |}.

End MoreSamples.

(** * Properties *)

(** ** The definitions on small inputs *)

Example lower_strip_sample : strip (lower "  10.1/ABC 	") = "10.1/abc".
Proof. reflexivity. Qed.

Example normalize_title_sample :
  normalize_title "Deep Learning: for Grid-Resilience (2nd ed.)"
  = "deeplearningforgridresilience2nded".
Proof. reflexivity. Qed.

Example fingerprint_samples :
  map (fun e => fingerprint (new_paper e))
      [Samples.entry "Deep Learning" (Some " 10.1/ABC ") 0;
       Samples.entry "Deep Learning" (Some "") 0;
       Samples.entry "Deep Learning" None 0;
       Samples.entry "Deep Learning" (Some " ") 0]
  = ["doi:10.1/abc"; "title:deeplearning"; "title:deeplearning"; "doi:"].
Proof. reflexivity. Qed.

Example dedupe_sample :
  map title
      (dedupe (map new_paper [Samples.entry "A b" None 0; Samples.entry "a-B" None 1;
                              Samples.entry "c" None 2; Samples.entry "d" None 3])
              ["title:c"])
  = ["A b"; "d"].
Proof. vm_compute. reflexivity. Qed.

Example slice_samples :
  slice_to 2 [1; 2; 3] = [1; 2] /\ slice_to (-1) [1; 2; 3] = [1; 2]
  /\ slice_to (-5) [1; 2; 3] = [] /\ slice_to 7 [1; 2; 3] = [1; 2; 3]
  /\ last_n 2 [1; 2; 3] = [2; 3] /\ last_n 5 [1; 2; 3] = [1; 2; 3].
Proof. repeat split. Qed.

Example sort_desc_stable :
  sort_desc snd [("a", 1); ("b", 3); ("c", 1); ("d", 3)]
  = [("b", 3); ("d", 3); ("a", 1); ("c", 1)].
Proof. reflexivity. Qed.

Example keyword_score_sample :
  keyword_score "Grid resilience of the GRID" ["grid"; "Resilience"; "solar"] = 2
  /\ group_score "Grid resilience" [["solar"; "grid"]; ["wind"]; []] = 1
  /\ should_exclude_title "  Erratum: Grid" ["erratum:"] = true.
Proof. repeat split. Qed.

Example int_of_float_sample :
  int_of_float (S754_finite false 171 (-1)) = Some 85
  /\ int_of_float (S754_finite true 171 (-1)) = Some (-85)
  /\ int_of_float S754_nan = None.
Proof. repeat split. Qed.

(** ** Strings *)

Section StringFacts.

Local Ltac by_cases_on c :=
  destruct c as [[] [] [] [] [] [] [] []]; vm_compute; reflexivity.

Lemma lower_char_class c : is_lower_alnum (lower_char c) = is_ascii_alnum c.
Proof. by_cases_on c. Qed.

Lemma lower_char_no_capital c :
  is_ascii_alnum (lower_char c) = is_lower_alnum (lower_char c).
Proof. by_cases_on c. Qed.

Lemma lower_char_space c : is_space (lower_char c) = is_space c.
Proof. by_cases_on c. Qed.

Lemma lower_is_empty s : is_empty (lower s) = is_empty s.
Proof. by destruct s. Qed.

Lemma lower_lstrip s : lower (lstrip s) = lstrip (lower s).
Proof.
  induction s as [|c s IH]; simpl; [done|].
  rewrite lower_char_space. by destruct (is_space c).
Qed.

Lemma lower_rstrip s : lower (rstrip s) = rstrip (lower s).
Proof.
  induction s as [|c s IH]; simpl; [done|].
  rewrite lower_char_space, <- IH, lower_is_empty.
  by destruct (is_space c && is_empty (rstrip s)).
Qed.

(** Trimming and lowercasing commute. *)
Lemma lower_strip s : lower (strip s) = strip (lower s).
Proof. unfold strip. by rewrite lower_rstrip, lower_lstrip. Qed.

Lemma is_empty_true s : is_empty s = true <-> s = "".
Proof. by destruct s. Qed.

Lemma is_empty_false s : is_empty s = false <-> s ≠ "".
Proof. by destruct s. Qed.

End StringFacts.

(** ** The fingerprint *)

Lemma normalize_title_spec t : normalize_title t = keep_ascii_alnum (lower t).
Proof.
  unfold normalize_title.
  induction t as [|c t IH]; simpl; [done|].
  rewrite lower_char_no_capital, IH. done.
Qed.

Lemma same_title_normalize s t :
  same_title s t -> normalize_title s = normalize_title t.
Proof.
  unfold normalize_title.
  induction 1 as [|c s t Hc _ IH|c s t Hc _ IH|c d s t Hcd _ IH]; simpl.
  - done.
  - by rewrite lower_char_class, Hc.
  - by rewrite lower_char_class, Hc.
  - by rewrite Hcd, IH.
Qed.

Lemma fingerprint_no_doi p :
  no_doi p -> fingerprint p = "title:" +:+ normalize_title (title p).
Proof. unfold fingerprint. by intros [-> | ->]. Qed.

Lemma fingerprint_doi p d :
  doi p = Some d -> d ≠ "" -> fingerprint p = "doi:" +:+ strip (lower d).
Proof.
  unfold fingerprint. intros -> Hd.
  apply is_empty_false in Hd. by rewrite Hd.
Qed.

(** The test [not fingerprint] of [dedupe] never holds. *)
Lemma fingerprint_not_empty p : is_empty (fingerprint p) = false.
Proof.
  unfold fingerprint. destruct (doi p) as [d|]; [destruct (is_empty d)|]; done.
Qed.

(** C1. The fingerprint of a paper with a non-empty doi is "doi:" followed
    by the lowercased, trimmed doi; the fingerprint of a paper without one
    is "title:" followed by the lowercased title without the characters
    that are not ASCII letters or digits; two papers without doi whose
    titles differ only in punctuation, case or spacing have the same
    fingerprint. *)
Theorem fingerprint_rule :
  (forall p d, doi p = Some d -> d ≠ "" ->
     fingerprint p = "doi:" +:+ lower (strip d))
  /\ (forall p, no_doi p ->
     fingerprint p = "title:" +:+ keep_ascii_alnum (lower (title p)))
  /\ (forall p q, no_doi p -> no_doi q -> same_title (title p) (title q) ->
     fingerprint p = fingerprint q).
Proof.
  split; [|split].
  - intros p d Hp Hd. rewrite lower_strip. by apply fingerprint_doi.
  - intros p Hp. rewrite <- normalize_title_spec. by apply fingerprint_no_doi.
  - intros p q Hp Hq Ht.
    rewrite (fingerprint_no_doi p Hp), (fingerprint_no_doi q Hq).
    by rewrite (same_title_normalize _ _ Ht).
Qed.

Local Ltac same_title_steps :=
  repeat first
    [ apply same_title_nil
    | apply same_title_char; [reflexivity|]
    | apply same_title_skip_l; [reflexivity|]
    | apply same_title_skip_r; [reflexivity|] ].

Lemma fingerprint_rule_witness :
  fingerprint (new_paper (Samples.entry "T" (Some " 10.1/ABC ") 0)) = "doi:10.1/abc"
  /\ fingerprint (new_paper (Samples.entry "Grid-Resilience: a Survey" None 0))
     = "title:gridresilienceasurvey"
  /\ fingerprint (new_paper (Samples.entry "Grid-Resilience: a Survey" None 0))
     = fingerprint (new_paper (Samples.entry "grid resilience, A survey." (Some "") 7)).
Proof.
  destruct fingerprint_rule as (Hdoi & Htitle & Hsame).
  split; [|split].
  - apply (Hdoi _ " 10.1/ABC "); [reflexivity | discriminate].
  - apply (Htitle (new_paper (Samples.entry "Grid-Resilience: a Survey" None 0))).
    left; reflexivity.
  - apply Hsame; [left; reflexivity | right; reflexivity |].
    simpl. same_title_steps.
Defined.

(** ** The deduplicator *)

Lemma dedupe_loop_acc papers seen unique :
  dedupe_loop papers seen unique = unique ++ dedupe_loop papers seen [].
Proof.
  revert seen unique.
  induction papers as [|p papers IH]; intros seen unique; simpl.
  - by rewrite app_nil_r.
  - destruct (is_empty (fingerprint p) || bool_decide (fingerprint p ∈ seen)).
    + apply IH.
    + rewrite IH, (IH _ [p]). by rewrite <- app_assoc.
Qed.

Lemma dedupe_loop_cons p papers seen :
  dedupe_loop (p :: papers) seen [] =
  if bool_decide (fingerprint p ∈ seen) then dedupe_loop papers seen []
  else p :: dedupe_loop papers ({[fingerprint p]} ∪ seen) [].
Proof.
  simpl. rewrite fingerprint_not_empty. simpl.
  destruct (bool_decide (fingerprint p ∈ seen)); [done|].
  by rewrite dedupe_loop_acc.
Qed.

Lemma filter_index_sublist {A} (keep : nat -> A -> bool) i (l : list A) :
  filter_index keep i l `sublist_of` l.
Proof.
  revert i. induction l as [|x l IH]; intros i; simpl; [done|].
  destruct (keep i x); [by apply sublist_skip | by apply sublist_cons].
Qed.

(** The loop keeps the papers that are new with respect to the sent
    fingerprints and to the part of the list already visited. *)
Lemma dedupe_loop_spec sent_ids papers :
  forall (visited : list Paper) (seen : gset string),
    (forall x, x ∈ seen <-> x ∈ sent_ids \/ x ∈ map fingerprint visited) ->
    dedupe_loop papers seen [] =
    filter_index (first_unseen sent_ids (visited ++ papers)) (length visited) papers.
Proof.
  induction papers as [|p papers IH]; intros visited seen Hseen; [done|].
  rewrite dedupe_loop_cons.
  cbn [filter_index]. unfold first_unseen at 1.
  rewrite take_app_length.
  replace (visited ++ p :: papers) with ((visited ++ [p]) ++ papers)
    by (by rewrite <- app_assoc).
  replace (S (length visited)) with (length (visited ++ [p]))
    by (rewrite length_app; simpl; lia).
  destruct (decide (fingerprint p ∈ seen)) as [Hin|Hnin].
  - rewrite (bool_decide_eq_true_2 _ Hin).
    assert (bool_decide (fingerprint p ∉ sent_ids)
            && bool_decide (fingerprint p ∉ map fingerprint visited) = false) as ->.
    { apply Hseen in Hin as [Hin|Hin].
      - by rewrite (bool_decide_eq_false_2 (fingerprint p ∉ sent_ids)); [|tauto].
      - rewrite (bool_decide_eq_false_2 (fingerprint p ∉ map fingerprint visited));
          [by rewrite andb_false_r | tauto]. }
    apply IH. intros x. rewrite Hseen, map_app, elem_of_app. simpl.
    rewrite list_elem_of_singleton. split; [tauto|].
    intros [?|[?| ->]]; [tauto|tauto|]. by apply Hseen.
  - rewrite (bool_decide_eq_false_2 _ Hnin).
    assert (bool_decide (fingerprint p ∉ sent_ids)
            && bool_decide (fingerprint p ∉ map fingerprint visited) = true) as ->.
    { rewrite Hseen in Hnin.
      rewrite !bool_decide_eq_true_2; [done|tauto|tauto]. }
    f_equal. apply IH. intros x.
    rewrite elem_of_union, elem_of_singleton, Hseen, map_app, elem_of_app.
    simpl. rewrite list_elem_of_singleton. tauto.
Qed.

Lemma dedupe_spec papers sent_ids :
  dedupe papers sent_ids = filter_index (first_unseen sent_ids papers) 0 papers.
Proof.
  unfold dedupe. apply (dedupe_loop_spec sent_ids papers []).
  intros x. rewrite elem_of_list_to_set. simpl. rewrite elem_of_nil. tauto.
Qed.

(** The fingerprints the loop lets through are distinct and not yet seen. *)
Lemma dedupe_loop_fresh papers :
  forall seen : gset string,
    NoDup (map fingerprint (dedupe_loop papers seen []))
    /\ (forall p, p ∈ dedupe_loop papers seen [] -> fingerprint p ∉ seen).
Proof.
  induction papers as [|p papers IH]; intros seen.
  - simpl. split; [constructor | intros p Hp; by apply elem_of_nil in Hp].
  - rewrite dedupe_loop_cons.
    destruct (decide (fingerprint p ∈ seen)) as [Hin|Hnin].
    + rewrite (bool_decide_eq_true_2 _ Hin). apply IH.
    + rewrite (bool_decide_eq_false_2 _ Hnin).
      destruct (IH ({[fingerprint p]} ∪ seen)) as [Hnd Hfresh]. split.
      * simpl. constructor; [|done].
        intros Hp. apply list_elem_of_fmap in Hp as (q & Hq & Hqin).
        apply Hfresh in Hqin. rewrite <- Hq in Hqin.
        apply Hqin, elem_of_union_l. by apply elem_of_singleton.
      * intros q Hq. apply elem_of_cons in Hq as [-> |Hq]; [done|].
        apply Hfresh in Hq. intros Hin. by apply Hq, elem_of_union_r.
Qed.

(** A list whose fingerprints are distinct and unseen goes through unchanged. *)
Lemma dedupe_loop_id papers :
  forall seen : gset string,
    NoDup (map fingerprint papers) ->
    (forall p, p ∈ papers -> fingerprint p ∉ seen) ->
    dedupe_loop papers seen [] = papers.
Proof.
  induction papers as [|p papers IH]; intros seen Hnd Hfresh; [done|].
  rewrite dedupe_loop_cons.
  rewrite bool_decide_eq_false_2 by (apply Hfresh; left).
  simpl in Hnd. apply NoDup_cons in Hnd as [Hp Hnd].
  f_equal. apply IH; [done|].
  intros q Hq. rewrite not_elem_of_union, not_elem_of_singleton. split.
  - intros Heq. apply Hp. rewrite <- Heq. apply list_elem_of_fmap. eauto.
  - apply Hfresh. by right.
Qed.

(** ** Lists *)

Lemma filter_sublist {A} (f : A -> bool) (l : list A) :
  List.filter f l `sublist_of` l.
Proof.
  induction l as [|x l IH]; simpl; [done|].
  destruct (f x); [by apply sublist_skip | by apply sublist_cons].
Qed.

Lemma elem_of_filter_bool {A} (f : A -> bool) (l : list A) x :
  x ∈ List.filter f l <-> x ∈ l /\ f x = true.
Proof. rewrite !list_elem_of_In. apply filter_In. Qed.

Lemma insert_desc_perm {A} (key : A -> Z) x (l : list A) :
  insert_desc key x l ≡ₚ x :: l.
Proof.
  induction l as [|y l IH]; simpl; [done|].
  destruct (key y <=? key x); [done|].
  rewrite IH. apply Permutation_swap.
Qed.

Lemma sort_desc_perm {A} (key : A -> Z) (l : list A) : sort_desc key l ≡ₚ l.
Proof.
  unfold sort_desc. induction l as [|x l IH]; simpl; [done|].
  by rewrite insert_desc_perm, IH.
Qed.

(** The sort does sort: keys never increase along the result. *)
Lemma sort_desc_sorted {A} (key : A -> Z) (l : list A) :
  StronglySorted (fun a b => key b <= key a) (sort_desc key l).
Proof.
  unfold sort_desc. induction l as [|x l IH]; simpl; [constructor|].
  revert IH. generalize (foldr (insert_desc key) [] l). clear l.
  intros l Hl. induction Hl as [|y l Hl IH Hy]; simpl.
  - by repeat constructor.
  - destruct (key y <=? key x) eqn:Hyx.
    + apply Z.leb_le in Hyx. constructor; [by constructor|].
      constructor; [done|].
      eapply Forall_impl; [exact Hy|]. simpl. intros b Hb. lia.
    + apply Z.leb_gt in Hyx. constructor; [done|].
      rewrite insert_desc_perm. constructor; [lia | done].
Qed.

Lemma slice_to_sublist {A} n (l : list A) : slice_to n l `sublist_of` l.
Proof. unfold slice_to. destruct (0 <=? n); apply sublist_take. Qed.

Lemma slice_to_from {A} n (l : list A) : slice_to n l ++ slice_from n l = l.
Proof. unfold slice_to, slice_from. destruct (0 <=? n); apply take_drop. Qed.


Lemma submseteq_NoDup {A} (l k : list A) : l ⊆+ k -> NoDup k -> NoDup l.
Proof.
  intros Hsub Hk. apply submseteq_sublist_l in Hsub as (m & Hlm & Hmk).
  rewrite <- Hmk in Hk. by eapply sublist_NoDup.
Qed.

Lemma last_n_length {A} n (l : list A) :
  length (last_n n l) = Nat.min n (length l).
Proof. unfold last_n. rewrite length_drop. lia. Qed.

Lemma last_n_short {A} n (l : list A) : (length l <= n)%nat -> last_n n l = l.
Proof.
  intros H. unfold last_n.
  by replace (length l - n)%nat with 0%nat by lia.
Qed.

(** Truncating before appending does not change the last [n] elements. *)
Lemma last_n_app {A} n (l k : list A) :
  last_n n (last_n n l ++ k) = last_n n (l ++ k).
Proof.
  unfold last_n.
  rewrite !length_app, length_drop, !drop_app, drop_drop, length_drop.
  f_equal; f_equal; lia.
Qed.

(** ** Stages that keep, drop or reorder papers *)

Lemma fingerprint_set_hits kw gr p : fingerprint (set_hits kw gr p) = fingerprint p.
Proof. done. Qed.

Lemma fingerprint_set_relevance sc re p :
  fingerprint (set_relevance sc re p) = fingerprint p.
Proof. done. Qed.

Lemma fingerprint_set_summary s p : fingerprint (set_summary s p) = fingerprint p.
Proof. done. Qed.

Lemma fingerprint_relevance_update rt data p :
  fingerprint (relevance_update rt data p) = fingerprint p.
Proof.
  unfold relevance_update.
  destruct data as [[| | | | | |kvs]|]; try done.
  by destruct (py_int rt _).
Qed.

Lemma keyword_loop_acc cfg papers filtered :
  keyword_loop cfg papers filtered = filtered ++ keyword_loop cfg papers [].
Proof.
  revert filtered.
  induction papers as [|p papers IH]; intros filtered; simpl.
  - by rewrite app_nil_r.
  - destruct (should_exclude_title _ _); [apply IH|].
    destruct (negb _ && existsb _ _); [apply IH|].
    rewrite IH, (IH [_]). by rewrite <- app_assoc.
Qed.

Lemma keyword_stage_fingerprints cfg papers :
  map fingerprint (keyword_stage cfg papers) `sublist_of` map fingerprint papers.
Proof.
  unfold keyword_stage.
  induction papers as [|p papers IH]; simpl; [done|].
  destruct (should_exclude_title _ _); [by apply sublist_cons|].
  destruct (negb _ && existsb _ _); [by apply sublist_cons|].
  rewrite keyword_loop_acc. simpl. by apply sublist_skip.
Qed.

Lemma map_sublist {A B} (f : A -> B) (l k : list A) :
  l `sublist_of` k -> map f l `sublist_of` map f k.
Proof. apply (fmap_sublist f). Qed.

Lemma map_imap_fingerprint (f : nat -> Paper -> Paper) (l : list Paper) :
  (forall k p, fingerprint (f k p) = fingerprint p) ->
  map fingerprint (imap f l) = map fingerprint l.
Proof.
  revert f. induction l as [|p l IH]; intros f Hf; [done|].
  rewrite imap_cons. simpl. rewrite Hf. f_equal.
  apply IH. intros k q. apply Hf.
Qed.

Lemma relevance_stage_fingerprints rt cfg env papers :
  map fingerprint (relevance_stage rt cfg env papers) = map fingerprint papers.
Proof.
  unfold relevance_stage.
  rewrite map_app, map_imap_fingerprint, <- map_app, slice_to_from; [done|].
  intros k p. apply fingerprint_relevance_update.
Qed.

Lemma summary_stage_fingerprints env client papers :
  map fingerprint (summary_stage env client papers) = map fingerprint papers.
Proof.
  unfold summary_stage. destruct client.
  - apply map_imap_fingerprint. intros k p. by destruct (summary_reply env k p).
  - rewrite map_map. done.
Qed.

Lemma rank_and_cut_within cfg client min_llm_score papers :
  rank_and_cut cfg client min_llm_score papers ⊆+ papers.
Proof.
  unfold rank_and_cut.
  etrans; [apply sublist_submseteq, slice_to_sublist|].
  etrans; [|apply Permutation_submseteq, (sort_desc_perm (final_score cfg))].
  destruct (client && _); [|done].
  apply sublist_submseteq, filter_sublist.
Qed.

Lemma map_submseteq {A B} (f : A -> B) (l k : list A) :
  l ⊆+ k -> map f l ⊆+ map f k.
Proof. apply (fmap_submseteq f). Qed.

(** The selection neither invents a paper nor repeats one. *)
Lemma selected_fingerprints rt cfg env client min_llm_score papers :
  map fingerprint (selected rt cfg env client min_llm_score papers)
  ⊆+ map fingerprint papers.
Proof.
  unfold selected. rewrite summary_stage_fingerprints.
  etrans; [apply map_submseteq, rank_and_cut_within|].
  etrans; [|apply map_submseteq, Permutation_submseteq,
             (sort_desc_perm keyword_hits)].
  destruct client; [|done].
  by rewrite relevance_stage_fingerprints.
Qed.

Lemma filtered_fingerprints cfg env state start :
  map fingerprint (filtered cfg env state start)
  ⊆+ map fingerprint (candidates cfg env state start).
Proof.
  unfold filtered. apply sublist_submseteq.
  etrans; [|apply keyword_stage_fingerprints].
  apply map_sublist. unfold threshold_stage.
  destruct (_ >? 0).
  - etrans; apply filter_sublist.
  - apply filter_sublist.
Qed.

Lemma digest_fingerprints rt args cfg env state :
  map fingerprint (digest rt args cfg env state)
  ⊆+ map fingerprint
       (candidates cfg env state (window_start rt cfg state (now_utc env))).
Proof.
  unfold digest. destruct (is_nil _); [apply submseteq_nil_l|].
  destruct (min_llm_score_of rt cfg); [|apply submseteq_nil_l].
  etrans; [apply selected_fingerprints | apply filtered_fingerprints].
Qed.

Lemma dedupe_fresh papers sent_ids :
  NoDup (map fingerprint (dedupe papers sent_ids))
  /\ (forall p, p ∈ dedupe papers sent_ids -> fingerprint p ∉ sent_ids).
Proof.
  unfold dedupe.
  destruct (dedupe_loop_fresh papers (list_to_set sent_ids)) as [Hnd Hfresh].
  split; [done|]. intros p Hp Hin.
  apply (Hfresh p Hp). by apply elem_of_list_to_set.
Qed.

(** The fingerprints of the digest are distinct and were not sent before. *)
Lemma digest_fresh rt args cfg env state :
  NoDup (map fingerprint (digest rt args cfg env state))
  /\ (forall p, p ∈ digest rt args cfg env state ->
        fingerprint p ∉ sent_ids state).
Proof.
  pose proof (digest_fingerprints rt args cfg env state) as Hsub.
  unfold candidates in Hsub.
  destruct (dedupe_fresh
              (filter_by_date (collect cfg env)
                 (window_start rt cfg state (now_utc env)))
              (sent_ids state)) as [Hnd Hfresh].
  split.
  - by eapply submseteq_NoDup.
  - intros p Hp.
    assert (fingerprint p ∈ map fingerprint (digest rt args cfg env state)) as Hfp
      by (apply list_elem_of_fmap; eauto).
    eapply elem_of_submseteq in Hfp; [|exact Hsub].
    apply list_elem_of_fmap in Hfp as (q & -> & Hq). by apply Hfresh.
Qed.

(** ** The effects of a run *)

(** The messages a run hands to the mail server carry the digest of the run. *)
Lemma main_outbox rt args cfg env w :
  exists new,
    outbox (snd (main rt args cfg env w)) = outbox w ++ new
    /\ Forall (fun m => em_papers m.1 = digest rt args cfg env (stored w)) new.
Proof.
  unfold main, digest, bind, load_state, when, ret, raise, send_email, save_state.
  fold (stored w).
  destruct (is_nil _).
  - destruct (no_email args), (smtp_ok env), (dry_run args); simpl;
      first [ by exists []; rewrite app_nil_r
            | eexists [_]; split; [reflexivity|]; by repeat constructor ].
  - destruct (llm_require cfg && negb (client_of args env)).
    { exists []. by rewrite app_nil_r. }
    destruct (min_llm_score_of rt cfg) as [m|].
    2: { exists []. by rewrite app_nil_r. }
    destruct (no_email args), (smtp_ok env), (dry_run args); simpl;
      first [ by exists []; rewrite app_nil_r
            | eexists [_]; split; [reflexivity|]; by repeat constructor ].
Qed.

(** The stored fingerprints after a run. *)
Lemma exec_sent_ids rt r w :
  (length (sent_ids (stored w)) <= 5000)%nat ->
  sent_ids (stored (exec rt r w))
  = last_n 5000 (sent_ids (stored w) ++ appended rt r w).
Proof.
  intros Hlen. destruct r as [args cfg env].
  unfold appended, exec, main, digest. cbn [run_args run_cfg run_env].
  unfold bind, load_state, when, ret, raise, send_email, save_state.
  fold (stored w).
  destruct (is_nil _).
  - destruct (no_email args), (smtp_ok env), (dry_run args);
      simpl; rewrite ?app_nil_r; by rewrite last_n_short.
  - destruct (llm_require cfg && negb (client_of args env)).
    { simpl. by rewrite app_nil_r, last_n_short. }
    destruct (min_llm_score_of rt cfg) as [m|].
    2: { simpl. by rewrite app_nil_r, last_n_short. }
    destruct (no_email args), (smtp_ok env), (dry_run args);
      simpl; rewrite ?app_nil_r; first [done | by rewrite last_n_short].
Qed.

Lemma run_all_sent_ids rt runs :
  forall w,
    (length (sent_ids (stored w)) <= 5000)%nat ->
    sent_ids (stored (run_all rt runs w))
    = last_n 5000 (sent_ids (stored w) ++ concat (appended_by rt runs w)).
Proof.
  unfold run_all.
  induction runs as [|r runs IH]; intros w Hlen; simpl.
  - by rewrite app_nil_r, last_n_short.
  - rewrite IH.
    + rewrite exec_sent_ids by done. by rewrite last_n_app, <- app_assoc.
    + rewrite exec_sent_ids by done. rewrite last_n_length. lia.
Qed.

(** C3. The deduplicator returns the papers of its input, in order, whose
    fingerprint is neither among the sent ones nor that of an earlier paper
    of the input; so the digest of a run, and every message the run sends,
    has papers with distinct fingerprints, none of them sent before. *)
Theorem dedupe_first_occurrences :
  (forall papers sent_ids,
     dedupe papers sent_ids = filter_index (first_unseen sent_ids papers) 0 papers
     /\ dedupe papers sent_ids `sublist_of` papers)
  /\ (forall rt args cfg env state,
     NoDup (map fingerprint (digest rt args cfg env state))
     /\ Forall (fun p => fingerprint p ∉ sent_ids state)
               (digest rt args cfg env state))
  /\ (forall rt args cfg env w,
     exists new,
       outbox (snd (main rt args cfg env w)) = outbox w ++ new
       /\ Forall (fun m => em_papers m.1 = digest rt args cfg env (stored w)) new).
Proof.
  split; [|split].
  - intros papers sent_ids. split; [apply dedupe_spec|].
    rewrite dedupe_spec. apply filter_index_sublist.
  - intros rt args cfg env state.
    destruct (digest_fresh rt args cfg env state) as [Hnd Hfresh].
    split; [done|]. by apply Forall_forall.
  - intros rt args cfg env w. apply main_outbox.
Qed.

(** C10. Deduplicating the output of the deduplicator again, against the
    same sent fingerprints, returns it unchanged. *)
Theorem dedupe_idempotent papers sent_ids :
  dedupe (dedupe papers sent_ids) sent_ids = dedupe papers sent_ids.
Proof.
  destruct (dedupe_loop_fresh papers (list_to_set sent_ids)) as [Hnd Hfresh].
  unfold dedupe at 1. by apply dedupe_loop_id.
Qed.

(** ** The order of the window filter and the deduplicator *)

Lemma filter_dedupe_loop_sublist start papers :
  forall seen seen' : gset string,
    seen' ⊆ seen ->
    filter_by_date (dedupe_loop papers seen []) start
    `sublist_of` dedupe_loop (filter_by_date papers start) seen' [].
Proof.
  unfold filter_by_date.
  induction papers as [|p papers IH]; intros seen seen' Hsub; [done|].
  rewrite dedupe_loop_cons.
  destruct (decide (fingerprint p ∈ seen)) as [Hin|Hnin].
  - rewrite (bool_decide_eq_true_2 _ Hin). cbn [List.filter].
    destruct (published p >=? start); [|by apply IH].
    rewrite dedupe_loop_cons.
    destruct (bool_decide (fingerprint p ∈ seen')); [by apply IH|].
    apply sublist_cons, IH.
    apply union_subseteq. split; [by apply singleton_subseteq_l | done].
  - rewrite (bool_decide_eq_false_2 _ Hnin). cbn [List.filter].
    destruct (published p >=? start).
    + rewrite dedupe_loop_cons.
      rewrite bool_decide_eq_false_2 by (intros H; by apply Hnin, Hsub).
      apply sublist_skip, IH. by apply union_mono_l.
    + apply IH. by apply union_subseteq_r'.
Qed.

(** C2, as the code has it.  The window filter runs first and the
    deduplicator second: the candidates are the deduplicator's output on
    the papers of the window.  Deduplicating first and filtering second
    gives a sub-list of the candidates. *)
Theorem candidates_filter_then_dedupe cfg env state start :
  candidates cfg env state start
  = dedupe (filter_by_date (collect cfg env) start) (sent_ids state)
  /\ filter_by_date (dedupe (collect cfg env) (sent_ids state)) start
     `sublist_of` candidates cfg env state start.
Proof.
  split; [done|]. unfold candidates, dedupe.
  by apply filter_dedupe_loop_sublist.
Qed.

(** C2 as stated fails: with an old paper and a new one that share a
    fingerprint, the code keeps the new one, and deduplicating first would
    keep none. *)
Lemma candidates_order_counterexample :
  candidates Samples.cfg0 (Samples.env0 100 Samples.old_and_new None)
             Samples.state0 50
  <> filter_by_date
       (dedupe (collect Samples.cfg0 (Samples.env0 100 Samples.old_and_new None))
               (sent_ids Samples.state0))
       50.
Proof. vm_compute. discriminate. Qed.

(** ** The time window *)

Lemma filter_bool_prop {A} (f : A -> bool) (P : A -> Prop)
    `{!forall x, Decision (P x)} (l : list A) :
  (forall x, f x = true <-> P x) -> List.filter f l = filter P l.
Proof.
  intros Hf. induction l as [|x l IH]; [done|].
  rewrite filter_cons. simpl. rewrite IH.
  destruct (decide (P x)) as [HP|HP].
  - by rewrite (proj2 (Hf x) HP).
  - destruct (f x) eqn:Hfx; [|done]. by apply Hf in Hfx.
Qed.

Lemma filter_by_date_spec papers start :
  filter_by_date papers start = filter (fun p => start <= published p) papers.
Proof.
  apply filter_bool_prop. intros p. rewrite Z.geb_le. done.
Qed.

(** C4. The window filter keeps exactly the papers published at or after
    the start of the window, the boundary included.  The window starts at
    the stored [last_run] when it is there and parses, and otherwise at
    [lookback_hours] hours, 36 when the key is missing, before now. *)
Theorem window_filter :
  (forall papers start,
     filter_by_date papers start = filter (fun p => start <= published p) papers
     /\ forall p, p ∈ filter_by_date papers start <->
                  p ∈ papers /\ start <= published p)
  /\ (forall rt cfg state now s t,
     last_run state = Some s -> s ≠ "" -> parse_date rt s = Some t ->
     window_start rt cfg state now = t)
  /\ (forall rt cfg state now,
     (last_run state = None \/ last_run state = Some ""
      \/ exists s, last_run state = Some s /\ parse_date rt s = None) ->
     window_start rt cfg state now
     = now - hours (default 36 (lookback_hours cfg))).
Proof.
  split; [|split].
  - intros papers start. split; [apply filter_by_date_spec|].
    intros p. unfold filter_by_date.
    by rewrite elem_of_filter_bool, Z.geb_le.
  - intros rt cfg state now s t Hs Hne Ht. unfold window_start.
    apply is_empty_false in Hne. by rewrite Hs, Hne, Ht.
  - intros rt cfg state now [H|[H|(s & Hs & Hp)]]; unfold window_start.
    + by rewrite H.
    + by rewrite H.
    + rewrite Hs, Hp. by destruct (is_empty s).
Qed.

Lemma window_filter_witness :
  (new_paper (Samples.entry "Grid" None 50)
     ∈ filter_by_date (map new_paper [Samples.entry "Grid" None 50;
                                      Samples.entry "Old" None 49]) 50)
  /\ ~ (new_paper (Samples.entry "Old" None 49)
     ∈ filter_by_date (map new_paper [Samples.entry "Grid" None 50;
                                      Samples.entry "Old" None 49]) 50)
  /\ window_start Samples.rt1 Samples.cfg0
       {| last_run := Some "1970-01-01T00:00:00.000007+00:00"; sent_ids := [] |}
       1000 = 7
  /\ window_start Samples.rt1 Samples.cfg0 Samples.state0 (hours 36) = 0.
Proof.
  destruct window_filter as (Hfilter & Hlast & Hlookback).
  split; [|split; [|split]].
  - apply Hfilter. split; [left | reflexivity].
  - intros H. apply Hfilter in H as [_ H]. by vm_compute in H.
  - apply (Hlast _ _ _ _ "1970-01-01T00:00:00.000007+00:00");
      [reflexivity | discriminate | reflexivity].
  - rewrite Hlookback; [reflexivity | by left].
Defined.

(** ** The minimum-hit thresholds *)

Lemma filter_filter_bool {A} (f g : A -> bool) (l : list A) :
  List.filter g (List.filter f l) = List.filter (fun x => f x && g x) l.
Proof.
  induction l as [|x l IH]; simpl; [done|].
  destruct (f x); simpl; [|done].
  rewrite IH. by destruct (g x).
Qed.

Lemma is_nil_true {A} (l : list A) : is_nil l = true <-> l = [].
Proof. by destruct l. Qed.

(** C7. The threshold stage keeps exactly the papers that pass: a paper is
    dropped when its keyword hits are below the minimum, unless no keyword
    is configured; and, when a positive number of groups is asked for, when
    its group hits are below that number. *)
Theorem threshold_stage_spec cfg papers :
  threshold_stage cfg papers = filter (passes_thresholds cfg) papers
  /\ (forall p, p ∈ papers ->
        (p ∉ threshold_stage cfg papers <->
         (keyword_hits p < default 1 (min_keyword_hits cfg) /\ keywords cfg ≠ [])
         \/ (0 < default 0 (min_groups_matched cfg)
             /\ group_hits p < default 0 (min_groups_matched cfg))))
  /\ (keywords cfg = [] -> default 0 (min_groups_matched cfg) = 0 ->
      threshold_stage cfg papers = papers).
Proof.
  assert (threshold_stage cfg papers = filter (passes_thresholds cfg) papers) as Heq.
  { unfold threshold_stage.
    destruct (default 0 (min_groups_matched cfg) >? 0) eqn:Hg.
    - rewrite filter_filter_bool. apply filter_bool_prop.
      intros p. unfold passes_thresholds.
      rewrite andb_true_iff, orb_true_iff, !Z.geb_le, is_nil_true.
      apply Z.gtb_lt in Hg. tauto.
    - apply filter_bool_prop.
      intros p. unfold passes_thresholds.
      rewrite orb_true_iff, !Z.geb_le, is_nil_true.
      assert (~ (0 < default 0 (min_groups_matched cfg))) as Hn.
      { intros Hlt. apply Z.gtb_lt in Hlt. by rewrite Hg in Hlt. }
      tauto. }
  split; [done|]. split.
  - intros p Hp. rewrite Heq, list_elem_of_filter. unfold passes_thresholds.
    rewrite (Z.lt_nge (keyword_hits p)), (Z.lt_nge (group_hits p)).
    destruct (decide (keywords cfg = [])),
      (decide (default 1 (min_keyword_hits cfg) <= keyword_hits p)),
      (decide (0 < default 0 (min_groups_matched cfg))),
      (decide (default 0 (min_groups_matched cfg) <= group_hits p)); tauto.
  - intros Hk Hg. rewrite Heq. clear Heq.
    induction papers as [|p papers IH]; [done|].
    rewrite filter_cons, decide_True, IH; [done|].
    unfold passes_thresholds. split; [by right | lia].
Qed.

Lemma threshold_stage_spec_witness :
  threshold_stage Samples.cfg0 (map new_paper Samples.two_new)
  = map new_paper Samples.two_new
  /\ new_paper (Samples.entry "Grid" None 100)
     ∉ threshold_stage (Samples.cfg1 ["solar"] None None)
                       (map new_paper Samples.two_new).
Proof.
  split.
  - destruct (threshold_stage_spec Samples.cfg0 (map new_paper Samples.two_new))
      as (_ & _ & Hpass).
    apply Hpass; reflexivity.
  - destruct (threshold_stage_spec (Samples.cfg1 ["solar"] None None)
                (map new_paper Samples.two_new)) as (_ & Hdrop & _).
    apply Hdrop; [left|]. left. split; [reflexivity | discriminate].
Defined.

(** ** The relevance score *)

(** C6, as the code has it.  When a relevance call returns [data] and the
    score of a paper gets set, [data] is a dict and the score is [int] of
    its "score" entry, 0 when there is none; nothing clamps it, so it is
    within 0..100 when [data] has an integer score within 0..100. *)
Theorem relevance_score_is_int_of_reply rt data p v :
  relevance_score p = None ->
  relevance_score (relevance_update rt (Some data) p) = Some v ->
  exists kvs,
    data = JObj kvs
    /\ py_int rt (dict_get kvs "score" (JInt 0)) = Some v
    /\ (forall z, dict_get kvs "score" (JInt 0) = JInt z ->
          0 <= z <= 100 -> 0 <= v <= 100).
Proof.
  intros Hnone Hset. unfold relevance_update in Hset.
  destruct data as [| | | | | |kvs]; try congruence.
  exists kvs. split; [done|].
  destruct (py_int rt (dict_get kvs "score" (JInt 0))) as [score|] eqn:Hint;
    [|congruence].
  simpl in Hset. injection Hset as ->. split; [done|].
  intros z Hz Hrange. rewrite Hz in Hint. simpl in Hint. by injection Hint as <-.
Qed.

Lemma relevance_score_is_int_of_reply_witness :
  exists kvs,
    JObj [("reason", JStr "on topic"); ("score", JInt 85)] = JObj kvs
    /\ py_int Samples.rt0 (dict_get kvs "score" (JInt 0)) = Some 85
    /\ (forall z, dict_get kvs "score" (JInt 0) = JInt z ->
          0 <= z <= 100 -> 0 <= 85 <= 100).
Proof.
  apply (relevance_score_is_int_of_reply Samples.rt0
           (JObj [("reason", JStr "on topic"); ("score", JInt 85)])
           (new_paper (Samples.entry "Grid" None 100)) 85);
    reflexivity.
Defined.

(** C6 as stated fails: a reply with the score 150 sets the score to 150,
    and the digest of a run with such replies carries it. *)
Lemma relevance_score_counterexample :
  relevance_score
    (relevance_update Samples.rt0 (Some (JObj [("score", JInt 150)]))
                      (new_paper (Samples.entry "Grid" None 100)))
  = Some 150
  /\ map relevance_score
       (digest Samples.rt0 (Samples.args0 false) Samples.cfg0
          (Samples.env0 100 Samples.two_new (Some (JObj [("score", JInt 150)])))
          Samples.state0)
     = [Some 150; Some 150]
  /\ ~ (0 <= 150 <= 100).
Proof. split; [|split]; [vm_compute; reflexivity .. | lia]. Qed.

(** ** The selection *)





(** The threshold is the configured minimum truncated: with 50.5 a paper
    of score 50 stays in the digest, and with 0.5 nothing is filtered, so
    that papers without score stay. *)
Lemma min_relevance_score_truncated :
  map relevance_score
      (digest Samples.rt0 (Samples.args0 false)
         (MoreSamples.cfg_min_score (JFloat (S754_finite false 101 (-1))))
         (Samples.env0 100 Samples.two_new (Some (JObj [("score", JInt 50)])))
         Samples.state0)
  = [Some 50; Some 50]
  /\ map relevance_score
       (digest Samples.rt0 (Samples.args0 false)
          (MoreSamples.cfg_min_score (JFloat (S754_finite false 1 (-1))))
          (Samples.env0 100 Samples.two_new None) Samples.state0)
     = [None; None].
Proof. split; vm_compute; reflexivity. Qed.


(** ** The state store *)

(** C8. The new list of sent fingerprints is the old one followed by the
    fingerprints of the digest, cut to its last 5000 entries.  After any
    sequence of runs from an empty state the stored list is the last 5000
    of all the fingerprints the runs appended, in the order they were
    appended, and its length is the smaller of 5000 and their number. *)
Theorem sent_ids_bounded_fifo rt :
  (forall sent_ids papers,
     update_sent_ids sent_ids papers
     = drop (length (sent_ids ++ map fingerprint papers) - 5000)
            (sent_ids ++ map fingerprint papers)
     /\ length (update_sent_ids sent_ids papers)
        = Nat.min 5000 (length sent_ids + length papers))
  /\ (forall runs,
     let all := concat (appended_by rt runs fresh_world) in
     sent_ids (stored (run_all rt runs fresh_world)) = drop (length all - 5000) all
     /\ length (sent_ids (stored (run_all rt runs fresh_world)))
        = Nat.min 5000 (length all)).
Proof.
  split.
  - intros sent_ids papers. split; [done|].
    unfold update_sent_ids. by rewrite last_n_length, length_app, length_map.
  - intros runs all.
    assert (sent_ids (stored (run_all rt runs fresh_world)) = last_n 5000 all) as ->.
    { rewrite run_all_sent_ids; [done | simpl; lia]. }
    split; [done | apply last_n_length].
Qed.

(** C9. A dry run leaves the world as it was: the state file is not
    written and no message is handed to the mail server, whether papers
    were found or not. *)
Theorem dry_run_frame rt args cfg env w :
  dry_run args = true -> snd (main rt args cfg env w) = w.
Proof.
  intros Hdry. unfold main, bind, load_state, when, ret, raise. rewrite Hdry.
  rewrite andb_false_r. simpl.
  destruct (is_nil _); [done|].
  destruct (llm_require cfg && negb (client_of args env)); [done|].
  by destruct (min_llm_score_of rt cfg).
Qed.

Lemma dry_run_frame_witness :
  snd (main Samples.rt0 (Samples.args0 true) Samples.cfg0
         (Samples.env0 100 Samples.two_new None) Samples.stored_world)
  = Samples.stored_world
  /\ snd (main Samples.rt0 (Samples.args0 true) Samples.cfg0
            (Samples.env0 100 [] None) fresh_world)
     = fresh_world.
Proof. split; apply dry_run_frame; reflexivity. Defined.

(** * More properties of the program *)

(** ** Fingerprints *)

Lemma string_forall_lower_space s :
  string_forall is_space (lower s) = string_forall is_space s.
Proof.
  induction s as [|c s IH]; simpl; [done|]. by rewrite lower_char_space, IH.
Qed.

Lemma lstrip_all_space s : string_forall is_space s = true -> lstrip s = "".
Proof.
  induction s as [|c s IH]; simpl; [done|].
  intros H. apply andb_true_iff in H as [-> H]. by apply IH.
Qed.

Lemma lower_char_fixed c : is_lower_alnum c = true -> lower_char c = c.
Proof. destruct c as [[] [] [] [] [] [] [] []]; vm_compute; congruence. Qed.

Lemma sub_non_alnum_class s : string_forall is_lower_alnum (sub_non_alnum s) = true.
Proof.
  induction s as [|c s IH]; simpl; [done|].
  destruct (is_lower_alnum c) eqn:Hc; simpl; [by rewrite Hc|done].
Qed.

Lemma sub_non_alnum_fixed s :
  string_forall is_lower_alnum s = true -> sub_non_alnum s = s /\ lower s = s.
Proof.
  induction s as [|c s IH]; simpl; [done|].
  intros H. apply andb_true_iff in H as [Hc H].
  destruct (IH H) as [-> ->]. by rewrite Hc, (lower_char_fixed c Hc).
Qed.

Lemma sub_non_alnum_length s :
  (String.length (sub_non_alnum s) <= String.length s)%nat.
Proof.
  induction s as [|c s IH]; simpl; [done|].
  destruct (is_lower_alnum c); simpl; lia.
Qed.

Lemma lower_length s : String.length (lower s) = String.length s.
Proof. induction s as [|c s IH]; simpl; [done|]. by rewrite IH. Qed.

(** X1. A paper with a non-empty doi and a paper without one never have the
    same fingerprint, whatever their titles, so the deduplicator keeps both. *)
Theorem fingerprint_doi_vs_title p q d :
  doi p = Some d -> d ≠ "" -> no_doi q ->
  fingerprint p ≠ fingerprint q /\ dedupe [p; q] [] = [p; q].
Proof.
  intros Hp Hd Hq.
  assert (fingerprint p ≠ fingerprint q) as Hne.
  { rewrite (fingerprint_doi p d Hp Hd), (fingerprint_no_doi q Hq).
    simpl. discriminate. }
  split; [done|]. unfold dedupe. apply dedupe_loop_id.
  - simpl. repeat constructor.
    + rewrite list_elem_of_singleton. done.
    + apply not_elem_of_nil.
  - intros r _. simpl. apply not_elem_of_empty.
Qed.

Lemma fingerprint_doi_vs_title_witness :
  fingerprint (new_paper (Samples.entry "Grid" (Some "10.1/ABC") 0))
  ≠ fingerprint (new_paper (Samples.entry "Grid" None 0))
  /\ dedupe [new_paper (Samples.entry "Grid" (Some "10.1/ABC") 0);
             new_paper (Samples.entry "Grid" None 0)] []
     = [new_paper (Samples.entry "Grid" (Some "10.1/ABC") 0);
        new_paper (Samples.entry "Grid" None 0)].
Proof.
  apply (fingerprint_doi_vs_title _ _ "10.1/ABC");
    [reflexivity | discriminate | left; reflexivity].
Defined.

(** X2. Two papers with a doi have the same fingerprint exactly when their
    dois agree after trimming and lowercasing, their titles playing no part;
    two papers without doi have the same fingerprint exactly when their
    normalized titles agree. *)
Theorem fingerprint_equal_iff p q :
  (forall d1 d2,
     doi p = Some d1 -> d1 ≠ "" -> doi q = Some d2 -> d2 ≠ "" ->
     (fingerprint p = fingerprint q <-> lower (strip d1) = lower (strip d2)))
  /\ (no_doi p -> no_doi q ->
      (fingerprint p = fingerprint q <->
       normalize_title (title p) = normalize_title (title q))).
Proof.
  split.
  - intros d1 d2 Hp H1 Hq H2.
    rewrite (fingerprint_doi p d1 Hp H1), (fingerprint_doi q d2 Hq H2).
    rewrite !lower_strip. simpl. split; [by intros [=] | by intros ->].
  - intros Hp Hq.
    rewrite (fingerprint_no_doi p Hp), (fingerprint_no_doi q Hq).
    simpl. split; [by intros [=] | by intros ->].
Qed.

Lemma fingerprint_equal_iff_witness :
  fingerprint (new_paper (Samples.entry "Grid" (Some " 10.1/ABC") 0))
  = fingerprint (new_paper (Samples.entry "Storage" (Some "10.1/abc ") 5)).
Proof.
  apply (proj1 (fingerprint_equal_iff _ _) " 10.1/ABC" "10.1/abc ");
    [reflexivity | discriminate | reflexivity | discriminate | reflexivity].
Defined.

(** X3. A doi made of whitespace only is still a doi: the fingerprint is
    the bare prefix "doi:", so two such papers are duplicates of each other
    whatever their titles. *)
Theorem fingerprint_blank_doi p q d e :
  doi p = Some d -> d ≠ "" -> string_forall is_space d = true ->
  doi q = Some e -> e ≠ "" -> string_forall is_space e = true ->
  fingerprint p = "doi:" /\ dedupe [p; q] [] = [p].
Proof.
  intros Hp Hd Hsp Hq He Hse.
  assert (forall r x, doi r = Some x -> x ≠ "" -> string_forall is_space x = true ->
                      fingerprint r = "doi:") as Hblank.
  { intros r x Hr Hx Hs. rewrite (fingerprint_doi r x Hr Hx).
    unfold strip. rewrite lstrip_all_space; [done|].
    by rewrite string_forall_lower_space. }
  split; [by eapply Hblank|].
  unfold dedupe. rewrite !dedupe_loop_cons.
  rewrite (Hblank p d), (Hblank q e) by done. simpl.
  rewrite bool_decide_eq_false_2 by apply not_elem_of_empty.
  rewrite bool_decide_eq_true_2; [done|].
  apply elem_of_union_l. by apply elem_of_singleton.
Qed.

Lemma fingerprint_blank_doi_witness :
  fingerprint (new_paper (Samples.entry "Grid" (Some " ") 0)) = "doi:"
  /\ dedupe [new_paper (Samples.entry "Grid" (Some " ") 0);
             new_paper (Samples.entry "Storage" (Some "  ") 1)] []
     = [new_paper (Samples.entry "Grid" (Some " ") 0)].
Proof.
  apply (fingerprint_blank_doi _ _ " " "  ");
    [reflexivity | discriminate | reflexivity
    | reflexivity | discriminate | reflexivity].
Defined.

(** X4. A normalized title has lowercase ASCII letters and digits only, is
    no longer than the title, and normalizing it again changes nothing. *)
Theorem normalize_title_normal_form t :
  string_forall is_lower_alnum (normalize_title t) = true
  /\ normalize_title (normalize_title t) = normalize_title t
  /\ (String.length (normalize_title t) <= String.length t)%nat.
Proof.
  unfold normalize_title. split; [apply sub_non_alnum_class|]. split.
  - destruct (sub_non_alnum_fixed _ (sub_non_alnum_class (lower t))) as [H1 H2].
    by rewrite H2, H1.
  - rewrite <- (lower_length t). apply sub_non_alnum_length.
Qed.

(** ** The deduplicator in batches *)

Lemma dedupe_loop_app l1 l2 :
  forall seen : gset string,
    dedupe_loop (l1 ++ l2) seen []
    = dedupe_loop l1 seen []
      ++ dedupe_loop l2 (seen ∪ list_to_set (map fingerprint l1)) [].
Proof.
  induction l1 as [|p l1 IH]; intros seen.
  - simpl. by rewrite union_empty_r_L.
  - rewrite <- app_comm_cons, !dedupe_loop_cons.
    destruct (decide (fingerprint p ∈ seen)) as [Hin|Hnin].
    + rewrite (bool_decide_eq_true_2 _ Hin), IH. do 2 f_equal.
      simpl. apply set_eq. intros x.
      rewrite !elem_of_union, elem_of_singleton. split; [tauto|].
      intros [?|[-> |?]]; tauto.
    + rewrite (bool_decide_eq_false_2 _ Hnin), IH. simpl. do 3 f_equal.
      apply set_eq. intros x.
      rewrite !elem_of_union, elem_of_singleton. tauto.
Qed.

(** A fingerprint of the input is seen already or is the one of a kept paper. *)
Lemma dedupe_loop_covers l :
  forall (seen : gset string) p,
    p ∈ l ->
    fingerprint p ∈ seen \/ fingerprint p ∈ map fingerprint (dedupe_loop l seen []).
Proof.
  induction l as [|q l IH]; intros seen p Hp; [by apply elem_of_nil in Hp|].
  rewrite dedupe_loop_cons.
  apply elem_of_cons in Hp as [-> |Hp].
  - destruct (decide (fingerprint q ∈ seen)) as [Hin|Hnin]; [by left|].
    rewrite (bool_decide_eq_false_2 _ Hnin). right. simpl. left.
  - destruct (decide (fingerprint q ∈ seen)) as [Hin|Hnin].
    + rewrite (bool_decide_eq_true_2 _ Hin). by apply IH.
    + rewrite (bool_decide_eq_false_2 _ Hnin).
      destruct (IH ({[fingerprint q]} ∪ seen) p Hp) as [H|H].
      * apply elem_of_union in H as [H|H]; [|by left].
        apply elem_of_singleton in H. right. simpl. rewrite H. left.
      * right. simpl. by right.
Qed.

(** X5. Deduplicating two batches one after the other, the fingerprints of
    the papers kept from the first batch being added to the sent ones
    before the second, gives what deduplicating them at once gives. *)
Theorem dedupe_in_batches l1 l2 sent_ids :
  dedupe (l1 ++ l2) sent_ids
  = dedupe l1 sent_ids
    ++ dedupe l2 (sent_ids ++ map fingerprint (dedupe l1 sent_ids)).
Proof.
  unfold dedupe. rewrite dedupe_loop_app. f_equal. f_equal.
  rewrite list_to_set_app_L. apply set_eq. intros x.
  rewrite !elem_of_union, !elem_of_list_to_set. split.
  - intros [H|H]; [by left|].
    apply list_elem_of_fmap in H as (p & -> & Hp).
    destruct (dedupe_loop_covers l1 (list_to_set sent_ids) p Hp) as [Hs|Hk].
    + left. by apply elem_of_list_to_set in Hs.
    + by right.
  - intros [H|H]; [by left|]. right.
    apply list_elem_of_fmap in H as (p & -> & Hp).
    apply list_elem_of_fmap. exists p. split; [done|].
    eapply elem_of_sublist; [exact Hp|].
    change (dedupe l1 sent_ids `sublist_of` l1).
    rewrite dedupe_spec. apply filter_index_sublist.
Qed.

(** X6. The deduplicator reads the sent fingerprints as a set: their order
    and their repetitions do not matter; and when every paper of the input
    has a sent fingerprint nothing is kept. *)
Theorem dedupe_sent_as_set papers s1 s2 :
  (forall x, x ∈ s1 <-> x ∈ s2) ->
  dedupe papers s1 = dedupe papers s2
  /\ ((forall p, p ∈ papers -> fingerprint p ∈ s1) -> dedupe papers s1 = []).
Proof.
  intros Hs. split.
  - unfold dedupe. f_equal. apply set_eq. intros x.
    by rewrite !elem_of_list_to_set.
  - intros Hall. unfold dedupe.
    assert (forall seen : gset string,
              (forall p, p ∈ papers -> fingerprint p ∈ seen) ->
              dedupe_loop papers seen [] = []) as Hnil.
    { clear. induction papers as [|p papers IH]; intros seen Hall; [done|].
      rewrite dedupe_loop_cons, bool_decide_eq_true_2 by (apply Hall; left).
      apply IH. intros q Hq. apply Hall. by right. }
    apply Hnil. intros p Hp. apply elem_of_list_to_set. by apply Hall.
Qed.

Lemma dedupe_sent_as_set_witness :
  dedupe (map new_paper Samples.two_new) ["title:grid"; "x"; "title:grid"]
  = dedupe (map new_paper Samples.two_new) ["x"; "title:grid"]
  /\ ((forall p, p ∈ map new_paper Samples.two_new ->
                 fingerprint p ∈ ["title:grid"; "x"; "title:grid"]) ->
      dedupe (map new_paper Samples.two_new) ["title:grid"; "x"; "title:grid"] = []).
Proof.
  apply dedupe_sent_as_set. intros x.
  rewrite !elem_of_cons, !elem_of_nil. tauto.
Defined.

(** ** Keyword and group scores *)

Lemma foldl_count {A} (f : A -> bool) (l : list A) (a : Z) :
  foldl (fun n x => if f x then n + 1 else n) a l
  = a + Z.of_nat (length (List.filter f l)).
Proof.
  revert a. induction l as [|x l IH]; intros a; simpl; [lia|].
  rewrite IH. destruct (f x); simpl; lia.
Qed.

Lemma contains_empty text : contains text "" = true.
Proof. by destruct text. Qed.

Lemma startswith_empty text : startswith text "" = true.
Proof. by destruct text. Qed.

Lemma existsb_elem {A} (f : A -> bool) (l : list A) x :
  x ∈ l -> f x = true -> existsb f l = true.
Proof.
  intros Hx Hf. apply existsb_exists. exists x. by rewrite <- list_elem_of_In.
Qed.

(** X7. The keyword score is the number of configured keywords that occur
    in the text, case ignored: a keyword counts once however often it
    occurs, and the score lies between 0 and the number of keywords. *)
Theorem keyword_score_counts text kws :
  keyword_score text kws = Z.of_nat (length (List.filter (matches text) kws))
  /\ 0 <= keyword_score text kws <= Z.of_nat (length kws).
Proof.
  assert (keyword_score text kws
          = Z.of_nat (length (List.filter (matches text) kws))) as Heq.
  { unfold keyword_score. by rewrite (foldl_count (matches text)). }
  split; [done|]. rewrite Heq.
  pose proof (filter_length_le (matches text) kws). lia.
Qed.

Lemma group_score_count text groups :
  group_score text groups
  = Z.of_nat (length (List.filter (fun g => existsb (matches text) g) groups)).
Proof.
  unfold group_score. destruct groups as [|g groups]; [done|].
  cbn [is_nil].
  by rewrite (foldl_count (fun g => existsb (matches text) g)).
Qed.

(** X8. The group score is the number of groups with at least one keyword
    that occurs in the text: a group counts once, a group without keywords
    never counts, and the score lies between 0 and the number of groups. *)
Theorem group_score_counts text groups :
  group_score text groups
  = Z.of_nat (length (List.filter (fun g => existsb (matches text) g) groups))
  /\ 0 <= group_score text groups <= Z.of_nat (length groups)
  /\ group_score text ([] :: groups) = group_score text groups.
Proof.
  split; [apply group_score_count|]. split.
  - rewrite group_score_count.
    pose proof (filter_length_le (fun g => existsb (matches text) g) groups). lia.
  - by rewrite !group_score_count.
Qed.

(** ** The keyword loop *)

Lemma keyword_stage_map_filter cfg papers :
  keyword_stage cfg papers
  = map (annotate cfg) (List.filter (fun p => negb (excluded cfg p)) papers).
Proof.
  unfold keyword_stage.
  induction papers as [|p papers IH]; [done|].
  cbn [keyword_loop List.filter]. unfold excluded at 1.
  destruct (should_exclude_title _ _); [done|]. cbn [orb].
  fold (paper_text p).
  change (existsb (fun k => contains (lower (paper_text p)) (lower k))
                  (exclude_keywords cfg))
    with (existsb (matches (paper_text p)) (exclude_keywords cfg)).
  assert (negb (is_nil (exclude_keywords cfg))
          && existsb (matches (paper_text p)) (exclude_keywords cfg)
          = existsb (matches (paper_text p)) (exclude_keywords cfg)) as ->.
  { by destruct (exclude_keywords cfg). }
  destruct (existsb _ _); [done|].
  cbn [negb map]. rewrite keyword_loop_acc, IH. done.
Qed.

(** X9. The keyword loop returns, in order, the papers that neither title
    prefixes nor exclusion keywords exclude, each with its two scores
    recomputed from its title and abstract; the scores lie between 0 and
    the number of keywords and of groups, and no other field changes. *)
Theorem keyword_stage_spec cfg papers :
  keyword_stage cfg papers
  = map (annotate cfg) (List.filter (fun p => negb (excluded cfg p)) papers)
  /\ Forall (fun p =>
       excluded cfg p = false
       /\ keyword_hits p = keyword_score (paper_text p) (keywords cfg)
       /\ group_hits p = group_score (paper_text p) (required_groups cfg)
       /\ 0 <= keyword_hits p <= Z.of_nat (length (keywords cfg))
       /\ 0 <= group_hits p <= Z.of_nat (length (required_groups cfg)))
     (keyword_stage cfg papers)
  /\ map entry_of (keyword_stage cfg papers) `sublist_of` map entry_of papers.
Proof.
  split; [apply keyword_stage_map_filter|]. split.
  - rewrite keyword_stage_map_filter. apply Forall_forall. intros p Hp.
    apply list_elem_of_fmap in Hp as (q & -> & Hq).
    apply elem_of_filter_bool in Hq as [_ Hq]. apply negb_true_iff in Hq.
    split; [done|]. split; [done|]. split; [done|]. cbn. split.
    + unfold keyword_score. rewrite (foldl_count (matches (paper_text q))).
      pose proof (filter_length_le (matches (paper_text q)) (keywords cfg)). lia.
    + rewrite group_score_count.
      pose proof (filter_length_le (fun g => existsb (matches (paper_text q)) g)
                    (required_groups cfg)). lia.
  - rewrite keyword_stage_map_filter, map_map. cbn.
    change (map (fun x => entry_of x)
              (List.filter (fun p => negb (excluded cfg p)) papers))
      with (map entry_of (List.filter (fun p => negb (excluded cfg p)) papers)).
    apply map_sublist, filter_sublist.
Qed.

(** X10. An empty string among the title prefixes or among the exclusion
    keywords excludes every paper: it is a prefix of every title and occurs
    in every text. *)
Theorem empty_exclusion_drops_all cfg papers :
  "" ∈ exclude_title_prefixes cfg \/ "" ∈ exclude_keywords cfg ->
  keyword_stage cfg papers = [].
Proof.
  intros H. rewrite keyword_stage_map_filter.
  assert (forall p, excluded cfg p = true) as Hex.
  { intros p. unfold excluded. apply orb_true_iff. destruct H as [H|H].
    - left. unfold should_exclude_title.
      destruct (exclude_title_prefixes cfg) as [|x l] eqn:Hl;
        [by apply elem_of_nil in H|].
      cbn [is_nil]. eapply existsb_elem; [exact H|]. apply startswith_empty.
    - right. eapply existsb_elem; [exact H|]. apply contains_empty. }
  induction papers as [|p papers IH]; [done|].
  cbn [List.filter]. by rewrite Hex.
Qed.

Lemma empty_exclusion_drops_all_witness :
  keyword_stage MoreSamples.cfg_empty_exclusion (map new_paper Samples.two_new) = [].
Proof.
  apply empty_exclusion_drops_all. right.
  apply list_elem_of_In. simpl. right. left. reflexivity.
Defined.

(** ** Where the papers of the digest come from *)

Lemma threshold_stage_filter cfg papers :
  threshold_stage cfg papers = filter (passes_thresholds cfg) papers.
Proof.
  unfold threshold_stage.
  destruct (default 0 (min_groups_matched cfg) >? 0) eqn:Hg.
  - rewrite filter_filter_bool. apply filter_bool_prop.
    intros p. unfold passes_thresholds.
    rewrite andb_true_iff, orb_true_iff, !Z.geb_le, is_nil_true.
    apply Z.gtb_lt in Hg. tauto.
  - apply filter_bool_prop.
    intros p. unfold passes_thresholds.
    rewrite orb_true_iff, !Z.geb_le, is_nil_true.
    assert (~ (0 < default 0 (min_groups_matched cfg))) as Hn.
    { intros Hlt. apply Z.gtb_lt in Hlt. by rewrite Hg in Hlt. }
    tauto.
Qed.

Lemma summary_stage_origin env client papers p :
  p ∈ summary_stage env client papers ->
  exists q s, q ∈ papers /\ p = set_summary s q
              /\ (client = false -> s = SummaryNoLLM (title q) (journal q)).
Proof.
  unfold summary_stage. destruct client.
  - intros Hp. apply list_elem_of_lookup in Hp as [k Hk].
    rewrite list_lookup_imap in Hk.
    destruct (papers !! k) as [q|] eqn:Hq; [|done].
    simpl in Hk. injection Hk as <-.
    apply list_elem_of_lookup_2 in Hq.
    destruct (summary_reply env k q); eexists q, _; by split.
  - intros Hp. apply list_elem_of_fmap in Hp as (q & -> & Hq).
    eexists q, _. by split.
Qed.

Lemma relevance_stage_origin rt cfg env papers p :
  p ∈ relevance_stage rt cfg env papers ->
  exists q data, q ∈ papers /\ p = relevance_update rt data q.
Proof.
  unfold relevance_stage. intros Hp.
  apply elem_of_app in Hp as [Hp|Hp].
  - apply list_elem_of_lookup in Hp as [k Hk].
    rewrite list_lookup_imap in Hk.
    destruct (slice_to _ papers !! k) as [q|] eqn:Hq; [|done].
    simpl in Hk. injection Hk as <-.
    apply list_elem_of_lookup_2 in Hq.
    eapply elem_of_sublist in Hq; [|apply slice_to_sublist].
    by eexists q, _.
  - exists p, None. split; [|done].
    rewrite <- (slice_to_from (default 30 (max_llm_eval cfg)) papers).
    apply elem_of_app. by right.
Qed.

Lemma relevance_update_entry rt data q :
  entry_of (relevance_update rt data q) = entry_of q
  /\ keyword_hits (relevance_update rt data q) = keyword_hits q
  /\ group_hits (relevance_update rt data q) = group_hits q.
Proof.
  unfold relevance_update.
  destruct data as [[| | | | | |kvs]|]; try done.
  by destruct (py_int rt _).
Qed.

(** A selected paper is one of the given papers with new annotations. *)
Lemma selected_origin rt cfg env client min_llm_score papers p :
  p ∈ selected rt cfg env client min_llm_score papers ->
  exists q,
    q ∈ papers /\ entry_of p = entry_of q
    /\ keyword_hits p = keyword_hits q /\ group_hits p = group_hits q
    /\ summary p ≠ None
    /\ (client = false ->
        relevance_score p = relevance_score q
        /\ relevance_reason p = relevance_reason q
        /\ summary p = Some (SummaryNoLLM (title q) (journal q))).
Proof.
  unfold selected. intros Hp.
  apply summary_stage_origin in Hp as (q & s & Hq & -> & Hs).
  eapply elem_of_submseteq in Hq; [|apply rank_and_cut_within].
  destruct client.
  - apply relevance_stage_origin in Hq as (q0 & data & Hq0 & ->).
    rewrite (sort_desc_perm keyword_hits) in Hq0.
    destruct (relevance_update_entry rt data q0) as (He & Hk & Hg).
    exists q0. split; [done|]. cbn.
    split; [exact He|]. split; [exact Hk|]. split; [exact Hg|]. by split.
  - rewrite (sort_desc_perm keyword_hits) in Hq.
    exists q. split; [done|]. cbn. repeat split; try done.
    by rewrite (Hs eq_refl).
Qed.

Lemma collect_origin cfg env q :
  q ∈ collect cfg env ->
  exists e,
    q = new_paper e
    /\ e ∈ rss_entries env ++ nature_entries env ++ elsevier_entries env
           ++ (if default true (include_preprints cfg) then arxiv_entries env else []).
Proof.
  unfold collect. intros Hq.
  assert (q ∈ map new_paper
            (rss_entries env ++ nature_entries env ++ elsevier_entries env
             ++ (if default true (include_preprints cfg)
                 then arxiv_entries env else []))) as H.
  { rewrite !map_app. destruct (default true (include_preprints cfg)).
    - by rewrite <- !app_assoc in Hq.
    - simpl. rewrite app_nil_r. by rewrite <- !app_assoc in Hq. }
  apply list_elem_of_fmap in H as (e & -> & He). by exists e.
Qed.

Lemma candidates_origin cfg env state start q :
  q ∈ candidates cfg env state start ->
  q ∈ collect cfg env /\ start <= published q.
Proof.
  unfold candidates. intros Hq.
  rewrite dedupe_spec in Hq.
  eapply elem_of_sublist in Hq; [|apply filter_index_sublist].
  unfold filter_by_date in Hq.
  apply elem_of_filter_bool in Hq as [Hq Hpub]. by apply Z.geb_le in Hpub.
Qed.

(** X11. Every paper of the digest is a paper collected in this run, with
    the fields given at its creation unchanged: it is published in the
    window, it is not excluded, its scores are those of its title and
    abstract and they pass the thresholds, and it has a summary.  Papers
    of arXiv are among them only when preprints are included. *)
Theorem digest_provenance rt args cfg env state :
  Forall (fun p =>
      entry_of p ∈ rss_entries env ++ nature_entries env ++ elsevier_entries env
                    ++ (if default true (include_preprints cfg)
                        then arxiv_entries env else [])
      /\ window_start rt cfg state (now_utc env) <= published p
      /\ excluded cfg p = false
      /\ keyword_hits p = keyword_score (paper_text p) (keywords cfg)
      /\ group_hits p = group_score (paper_text p) (required_groups cfg)
      /\ passes_thresholds cfg p
      /\ summary p ≠ None)
    (digest rt args cfg env state).
Proof.
  apply Forall_forall. intros p Hp. unfold digest in Hp.
  destruct (is_nil _); [by apply elem_of_nil in Hp|].
  destruct (min_llm_score_of rt cfg) as [m|]; [|by apply elem_of_nil in Hp].
  apply selected_origin in Hp as (q & Hq & He & Hk & Hg & Hs & _).
  unfold filtered in Hq. rewrite threshold_stage_filter in Hq.
  apply list_elem_of_filter in Hq as [Hpass Hq].
  rewrite keyword_stage_map_filter in Hq.
  apply list_elem_of_fmap in Hq as (q0 & -> & Hq0).
  apply elem_of_filter_bool in Hq0 as [Hq0 Hex]. apply negb_true_iff in Hex.
  apply candidates_origin in Hq0 as [Hq0 Hpub].
  apply collect_origin in Hq0 as (e & -> & Hin).
  assert (entry_of p = e) as Hent by (rewrite He; by destruct e).
  assert (title p = e_title e /\ abstract p = e_abstract e
          /\ published p = e_published e) as (Ht & Ha & Hd).
  { repeat split.
    - exact (f_equal e_title Hent).
    - exact (f_equal e_abstract Hent).
    - exact (f_equal e_published Hent). }
  assert (paper_text p = paper_text (new_paper e)) as Htext
    by (unfold paper_text; rewrite Ht, Ha; done).
  split; [by rewrite Hent|]. split; [by rewrite Hd|].
  split; [unfold excluded in *; by rewrite Htext, Ht|].
  split; [by rewrite Hk, Htext|]. split; [by rewrite Hg, Htext|].
  split; [|done].
  unfold passes_thresholds in *. by rewrite Hk, Hg.
Qed.

(** X12. In a run without LLM client no paper of the digest has a relevance
    score or reason, and each has the placeholder summary that restates
    its title and journal. *)
Theorem digest_without_llm rt args cfg env state :
  client_of args env = false ->
  Forall (fun p =>
      relevance_score p = None /\ relevance_reason p = None
      /\ summary p = Some (SummaryNoLLM (title p) (journal p)))
    (digest rt args cfg env state).
Proof.
  intros Hclient. apply Forall_forall. intros p Hp. unfold digest in Hp.
  destruct (is_nil _); [by apply elem_of_nil in Hp|].
  destruct (min_llm_score_of rt cfg) as [m|]; [|by apply elem_of_nil in Hp].
  rewrite Hclient in Hp.
  apply selected_origin in Hp as (q & Hq & He & _ & _ & _ & Hno).
  destruct (Hno eq_refl) as (Hs & Hr & Hsum).
  unfold filtered in Hq. rewrite threshold_stage_filter in Hq.
  apply list_elem_of_filter in Hq as [_ Hq].
  rewrite keyword_stage_map_filter in Hq.
  apply list_elem_of_fmap in Hq as (q0 & -> & Hq0).
  apply elem_of_filter_bool in Hq0 as [Hq0 _].
  apply candidates_origin in Hq0 as [Hq0 _].
  apply collect_origin in Hq0 as (e & -> & _).
  split; [by rewrite Hs|]. split; [by rewrite Hr|].
  rewrite Hsum.
  pose proof (f_equal e_title He) as Ht. pose proof (f_equal e_journal He) as Hj.
  cbn in Ht, Hj. cbn. by rewrite Ht, Hj.
Qed.

Lemma digest_without_llm_witness :
  Forall (fun p =>
      relevance_score p = None /\ relevance_reason p = None
      /\ summary p = Some (SummaryNoLLM (title p) (journal p)))
    (digest Samples.rt0 MoreSamples.args_no_llm Samples.cfg0
       (Samples.env0 100 Samples.two_new (Some (JObj [("score", JInt 85)])))
       Samples.state0).
Proof. apply digest_without_llm. reflexivity. Defined.

(** ** The order of the digest *)

Lemma StronglySorted_sublist_of {A} (R : relation A) (l : list A) :
  StronglySorted R l -> forall k, k `sublist_of` l -> StronglySorted R k.
Proof.
  induction 1 as [|x l Hl IH Hx]; intros k Hk.
  - apply sublist_nil_r in Hk as ->. constructor.
  - apply sublist_cons_r in Hk as [Hk|(k' & -> & Hk)]; [by apply IH|].
    constructor; [by apply IH|].
    apply Forall_forall. intros y Hy.
    eapply Forall_forall; [exact Hx|]. by eapply elem_of_sublist.
Qed.

Lemma map_imap_same {B} (g : Paper -> B) (f : nat -> Paper -> Paper) (l : list Paper) :
  (forall k p, g (f k p) = g p) -> map g (imap f l) = map g l.
Proof.
  revert f. induction l as [|p l IH]; intros f Hf; [done|].
  rewrite imap_cons. simpl. rewrite Hf. f_equal.
  apply IH. intros k q. apply Hf.
Qed.

Lemma summary_stage_final_score cfg env client papers :
  map (final_score cfg) (summary_stage env client papers)
  = map (final_score cfg) papers.
Proof.
  unfold summary_stage. destruct client.
  - apply map_imap_same. intros k p. by destruct (summary_reply env k p).
  - by rewrite map_map.
Qed.

(** X13. The papers of the digest are in descending order of their final
    score: the relevance score, or the keyword hits when there is none,
    plus the weight of the source group. *)
Theorem digest_sorted rt args cfg env state :
  StronglySorted (fun x y => y <= x)
    (map (final_score cfg) (digest rt args cfg env state)).
Proof.
  unfold digest. destruct (is_nil _); [constructor|].
  destruct (min_llm_score_of rt cfg) as [m|]; [|constructor].
  unfold selected. rewrite summary_stage_final_score.
  apply (StronglySorted_fmap (final_score cfg)
           (fun a b => final_score cfg b <= final_score cfg a)); [done|].
  unfold rank_and_cut.
  eapply StronglySorted_sublist_of; [apply sort_desc_sorted|].
  etrans; [apply slice_to_sublist|].
  destruct (_ && _); [apply filter_sublist | done].
Qed.

(** ** The relevance step *)

(** X14. With a non-negative [max_llm_eval], the relevance step asks about
    the papers at the positions below it only: each of these is replaced by
    its update, which is the paper itself when the call fails, and the
    papers after them are left as they are. *)
Theorem relevance_stage_lookup rt cfg env papers k p :
  0 <= default 30 (max_llm_eval cfg) ->
  papers !! k = Some p ->
  relevance_stage rt cfg env papers !! k
  = Some (if Z.of_nat k <? default 30 (max_llm_eval cfg)
          then relevance_update rt (relevance_reply env k p) p
          else p)
  /\ relevance_update rt None p = p
  /\ length (relevance_stage rt cfg env papers) = length papers.
Proof.
  intros Hmax Hk. unfold relevance_stage, slice_to, slice_from.
  rewrite (proj2 (Z.leb_le _ _) Hmax).
  set (n := Z.to_nat (default 30 (max_llm_eval cfg))).
  pose proof (lookup_lt_Some _ _ _ Hk) as Hlen.
  split; [|split; [done|]].
  - destruct (Z.of_nat k <? default 30 (max_llm_eval cfg)) eqn:Hlt.
    + apply Z.ltb_lt in Hlt.
      rewrite lookup_app_l by (rewrite length_imap, length_take; lia).
      rewrite list_lookup_imap, lookup_take_lt by lia. by rewrite Hk.
    + apply Z.ltb_ge in Hlt.
      rewrite lookup_app_r by (rewrite length_imap, length_take; lia).
      rewrite length_imap, length_take, lookup_drop.
      rewrite <- Hk. f_equal. lia.
  - rewrite length_app, length_imap, length_take, length_drop. lia.
Qed.

Lemma relevance_stage_lookup_witness :
  relevance_stage Samples.rt0 Samples.cfg0
    (Samples.env0 100 [] (Some (JObj [("score", JInt 85)])))
    (map new_paper Samples.two_new) !! 1%nat
  = Some (if Z.of_nat 1 <? default 30 (max_llm_eval Samples.cfg0)
          then relevance_update Samples.rt0
                 (relevance_reply
                    (Samples.env0 100 [] (Some (JObj [("score", JInt 85)]))) 1
                    (new_paper (Samples.entry "Storage" (Some "10.1/ABC") 100)))
                 (new_paper (Samples.entry "Storage" (Some "10.1/ABC") 100))
          else new_paper (Samples.entry "Storage" (Some "10.1/ABC") 100))
  /\ relevance_update Samples.rt0 None
       (new_paper (Samples.entry "Storage" (Some "10.1/ABC") 100))
     = new_paper (Samples.entry "Storage" (Some "10.1/ABC") 100)
  /\ length (relevance_stage Samples.rt0 Samples.cfg0
               (Samples.env0 100 [] (Some (JObj [("score", JInt 85)])))
               (map new_paper Samples.two_new))
     = length (map new_paper Samples.two_new).
Proof.
  apply relevance_stage_lookup; [simpl; lia | reflexivity].
Defined.

(** ** How a run ends *)

(** X15. A run stops on the missing LLM exactly when papers passed the
    filters, the LLM is required and there is no client: a required LLM
    does not stop a run without papers.  The run stops then before any
    message is sent and before the state is written. *)
Theorem main_llm_required rt args cfg env w :
  (fst (main rt args cfg env w) = Raised LLMRequired <->
   is_nil (filtered cfg env (stored w)
             (window_start rt cfg (stored w) (now_utc env))) = false
   /\ llm_require cfg = true /\ client_of args env = false)
  /\ (fst (main rt args cfg env w) = Raised LLMRequired ->
      snd (main rt args cfg env w) = w).
Proof.
  unfold main, bind, load_state, when, ret, raise, send_email, save_state.
  fold (stored w).
  destruct (is_nil _).
  - destruct (no_email args), (smtp_ok env), (dry_run args); simpl;
      (split; [split; [done | by intros [? _]] | done]).
  - destruct (llm_require cfg), (client_of args env); simpl;
      try (split; [split; [done | intros (_ & ? & ?); done] | done]);
      destruct (min_llm_score_of rt cfg) as [m|];
      try (split; [split; [done | intros (_ & ? & ?); done] | done]);
      destruct (no_email args), (smtp_ok env), (dry_run args); simpl;
      (split; [split; [done | intros (_ & ? & ?); done] | done]).
Qed.

Lemma main_llm_required_witness :
  snd (main Samples.rt0 MoreSamples.args_no_llm MoreSamples.cfg_llm_required
         (Samples.env0 100 Samples.two_new None) Samples.stored_world)
  = Samples.stored_world.
Proof.
  apply (proj2 (main_llm_required Samples.rt0 MoreSamples.args_no_llm
                  MoreSamples.cfg_llm_required
                  (Samples.env0 100 Samples.two_new None) Samples.stored_world)).
  vm_compute. reflexivity.
Defined.

(** X16. A run that is not a dry run and returns stores its clock reading
    as [last_run], whether papers were found or not, and keeps the sent
    fingerprints when none were; when the stored text parses back to the
    reading, the window of the next run starts there. *)
Theorem main_advances_last_run rt args cfg env w z :
  dry_run args = false ->
  fst (main rt args cfg env w) = Done z ->
  last_run (stored (snd (main rt args cfg env w)))
  = Some (isoformat rt (now_utc env))
  /\ (is_nil (filtered cfg env (stored w)
                (window_start rt cfg (stored w) (now_utc env))) = true ->
      sent_ids (stored (snd (main rt args cfg env w))) = sent_ids (stored w))
  /\ (isoformat rt (now_utc env) ≠ "" ->
      parse_date rt (isoformat rt (now_utc env)) = Some (now_utc env) ->
      forall cfg' now',
        window_start rt cfg' (stored (snd (main rt args cfg env w))) now'
        = now_utc env).
Proof.
  intros Hdry.
  unfold main, bind, load_state, when, ret, raise, send_email, save_state.
  fold (stored w). rewrite Hdry.
  assert (forall st,
            last_run st = Some (isoformat rt (now_utc env)) ->
            isoformat rt (now_utc env) ≠ "" ->
            parse_date rt (isoformat rt (now_utc env)) = Some (now_utc env) ->
            forall cfg' now', window_start rt cfg' st now' = now_utc env) as Hnext.
  { intros st Hst Hne Hparse cfg' now'. unfold window_start.
    apply is_empty_false in Hne. by rewrite Hst, Hne, Hparse. }
  destruct (is_nil _).
  - destruct (no_email args), (smtp_ok env); simpl; intros Hdone; try done;
      (split; [done|]; split; [done|]; by apply Hnext).
  - destruct (llm_require cfg && negb (client_of args env)); [done|].
    destruct (min_llm_score_of rt cfg) as [m|]; [|done].
    destruct (no_email args), (smtp_ok env); simpl; intros Hdone; try done;
      (split; [done|]; split; [done|]; by apply Hnext).
Qed.

Lemma main_advances_last_run_witness :
  last_run (stored (snd (main MoreSamples.rt_iso (Samples.args0 false) Samples.cfg0
                           (Samples.env0 100 [] None) fresh_world)))
  = Some "1970-01-01T00:00:00.000100+00:00"
  /\ window_start MoreSamples.rt_iso Samples.cfg0
       (stored (snd (main MoreSamples.rt_iso (Samples.args0 false) Samples.cfg0
                       (Samples.env0 100 [] None) fresh_world)))
       5000
     = 100.
Proof.
  destruct (main_advances_last_run MoreSamples.rt_iso (Samples.args0 false)
              Samples.cfg0 (Samples.env0 100 [] None) fresh_world 0)
    as (Hlast & _ & Hnext); [reflexivity | reflexivity |].
  split; [exact Hlast|].
  apply Hnext; [discriminate | reflexivity].
Defined.

(** X17. A run that returns hands exactly one message to the mail server
    when neither [--no-email] nor [--dry-run] is given, and none otherwise;
    the message carries the digest, the window and the configured subject
    prefix and sender name. *)
Theorem main_sends_one_message rt args cfg env w z :
  fst (main rt args cfg env w) = Done z ->
  outbox (snd (main rt args cfg env w))
  = outbox w
    ++ (if negb (no_email args) && negb (dry_run args)
        then [(build_email (digest rt args cfg env (stored w))
                 (window_start rt cfg (stored w) (now_utc env))
                 (now_utc env) (subject_prefix cfg),
               from_name cfg)]
        else []).
Proof.
  unfold main, digest, bind, load_state, when, ret, raise, send_email, save_state.
  fold (stored w).
  destruct (is_nil _).
  - destruct (no_email args), (smtp_ok env), (dry_run args); simpl;
      intros Hdone; try done; by rewrite app_nil_r.
  - destruct (llm_require cfg && negb (client_of args env)); [done|].
    destruct (min_llm_score_of rt cfg) as [m|]; [|done].
    destruct (no_email args), (smtp_ok env), (dry_run args); simpl;
      intros Hdone; try done; by rewrite app_nil_r.
Qed.

Lemma main_sends_one_message_witness :
  outbox (snd (main Samples.rt0 (Samples.args0 false) Samples.cfg0
                 (Samples.env0 100 Samples.two_new None) fresh_world))
  = outbox fresh_world
    ++ [(build_email
           (digest Samples.rt0 (Samples.args0 false) Samples.cfg0
              (Samples.env0 100 Samples.two_new None) (stored fresh_world))
           (window_start Samples.rt0 Samples.cfg0 (stored fresh_world) 100)
           100 "[digest]",
         "Bot")].
Proof.
  apply (main_sends_one_message Samples.rt0 (Samples.args0 false) Samples.cfg0
           (Samples.env0 100 Samples.two_new None) fresh_world 0).
  reflexivity.
Defined.

(** ** From one run to the next *)

Lemma main_stored_sent_ids rt args cfg env w z :
  dry_run args = false ->
  fst (main rt args cfg env w) = Done z ->
  (length (sent_ids (stored w))
   + length (digest rt args cfg env (stored w)) <= 5000)%nat ->
  sent_ids (stored (snd (main rt args cfg env w)))
  = sent_ids (stored w) ++ map fingerprint (digest rt args cfg env (stored w)).
Proof.
  intros Hdry.
  unfold main, digest, bind, load_state, when, ret, raise, send_email, save_state.
  fold (stored w). rewrite Hdry.
  destruct (is_nil _).
  - destruct (no_email args), (smtp_ok env); simpl; intros Hdone Hlen;
      try done; by rewrite app_nil_r.
  - destruct (llm_require cfg && negb (client_of args env)); [done|].
    destruct (min_llm_score_of rt cfg) as [m|]; [|done].
    destruct (no_email args), (smtp_ok env); simpl; intros Hdone Hlen;
      try done; unfold update_sent_ids;
      apply last_n_short; rewrite length_app, length_map; lia.
Qed.

(** X18. A paper sent by a run is not sent again by the next run: when a
    run that is not a dry run returns, and the stored fingerprints with
    those of its digest are at most 5000, the digest of any run on the
    state it leaves has no fingerprint of its digest. *)
Theorem no_resend rt args cfg env w z args' cfg' env' :
  dry_run args = false ->
  fst (main rt args cfg env w) = Done z ->
  (length (sent_ids (stored w))
   + length (digest rt args cfg env (stored w)) <= 5000)%nat ->
  Forall (fun p => fingerprint p
                   ∉ map fingerprint (digest rt args cfg env (stored w)))
    (digest rt args' cfg' env' (stored (snd (main rt args cfg env w)))).
Proof.
  intros Hdry Hdone Hlen.
  pose proof (main_stored_sent_ids rt args cfg env w z Hdry Hdone Hlen) as Hsent.
  destruct (digest_fresh rt args' cfg' env'
              (stored (snd (main rt args cfg env w)))) as [_ Hfresh].
  apply Forall_forall. intros p Hp Hin.
  apply (Hfresh p Hp). rewrite Hsent. apply elem_of_app. by right.
Qed.

Lemma no_resend_witness :
  Forall (fun p => fingerprint p
                   ∉ map fingerprint
                       (digest Samples.rt0 (Samples.args0 false) Samples.cfg0
                          (Samples.env0 100 Samples.two_new None)
                          (stored fresh_world)))
    (digest Samples.rt0 (Samples.args0 false) Samples.cfg0
       (Samples.env0 200 Samples.two_new None)
       (stored (snd (main Samples.rt0 (Samples.args0 false) Samples.cfg0
                       (Samples.env0 100 Samples.two_new None) fresh_world)))).
Proof.
  apply (no_resend Samples.rt0 (Samples.args0 false) Samples.cfg0
           (Samples.env0 100 Samples.two_new None) fresh_world 0);
    [reflexivity | reflexivity | vm_compute; lia].
Defined.

(** ** [strip_html] *)

Example strip_html_samples :
  strip_html "<p>Grid  <b>resilience</b>
   of <i
   class='x'>cities</i>.</p>" = "Grid resilience of cities ."
  /\ strip_html "a <> b < c" = "a <> b < c"
  /\ strip_html "<<a>b>" = "b>"
  /\ strip_html "   " = "" /\ strip_html "" = "".
Proof. repeat split. Qed.

Section StripHtmlFacts.

Lemma space_not_gt c : is_space c = true -> Ascii.eqb c ">" = false.
Proof. destruct c as [[] [] [] [] [] [] [] []]; vm_compute; congruence. Qed.

Lemma space_not_lt c : is_space c = true -> Ascii.eqb c "<" = false.
Proof. destruct c as [[] [] [] [] [] [] [] []]; vm_compute; congruence. Qed.

Lemma has_gt_no_tag_opens s : has_gt s = false -> tag_opens s = false.
Proof.
  destruct s as [|c s]; simpl; [done|].
  intros H. apply orb_false_iff in H as [_ ->]. apply andb_false_r.
Qed.

Lemma sub_tags_no_gt s : has_gt s = false -> sub_tags_from false s = s.
Proof.
  induction s as [|c s IH]; simpl; [done|].
  intros H. apply orb_false_iff in H as [Hc Hs].
  rewrite (has_gt_no_tag_opens s Hs), andb_false_r. by rewrite IH.
Qed.

(** What the scan copies after an unmatched "<" does not start a tag either. *)
Lemma sub_tags_keeps_closed s :
  tag_opens s = false -> tag_opens (sub_tags_from false s) = false.
Proof.
  destruct s as [|c s]; [done|]. cbn [tag_opens].
  intros H. apply andb_false_iff in H as [H|H].
  - apply negb_false_iff in H. cbn [sub_tags_from].
    assert (Ascii.eqb c "<" = false) as ->.
    { apply Ascii.eqb_eq in H as ->. reflexivity. }
    cbn. by rewrite H.
  - destruct (Ascii.eqb c ">") eqn:Hc.
    + cbn [sub_tags_from].
      assert (Ascii.eqb c "<" = false) as ->.
      { apply Ascii.eqb_eq in Hc as ->. reflexivity. }
      cbn. by rewrite Hc.
    + rewrite sub_tags_no_gt by (simpl; by rewrite Hc, H).
      cbn. by rewrite H, andb_false_r.
Qed.

Lemma sub_tags_no_tag s :
  has_tag (sub_tags_from false s) = false /\ has_tag (sub_tags_from true s) = false.
Proof.
  induction s as [|c s [IHf IHt]]; [done|]. split.
  - cbn [sub_tags_from].
    destruct (Ascii.eqb c "<" && tag_opens s) eqn:Hopen; [done|].
    cbn [has_tag]. rewrite IHf, orb_false_r.
    apply andb_false_iff in Hopen as [Hc|Hs]; [by rewrite Hc|].
    by rewrite (sub_tags_keeps_closed s Hs), andb_false_r.
  - cbn [sub_tags_from]. destruct (Ascii.eqb c ">"); [|done].
    cbn [has_tag]. by rewrite IHf.
Qed.

Lemma sub_spaces_has_gt b s : has_gt (sub_spaces_from b s) = has_gt s.
Proof.
  revert b. induction s as [|c s IH]; intros b; [done|].
  cbn [sub_spaces_from has_gt].
  destruct (is_space c) eqn:Hc.
  - rewrite (space_not_gt c Hc). destruct b; [apply IH|]. cbn. apply IH.
  - cbn. by rewrite IH.
Qed.

Lemma sub_spaces_keeps_closed s :
  tag_opens s = false -> tag_opens (sub_spaces_from false s) = false.
Proof.
  destruct s as [|c s]; [done|]. cbn [tag_opens sub_spaces_from].
  intros H. destruct (is_space c) eqn:Hc.
  - rewrite (space_not_gt c Hc) in H. cbn in H. cbn.
    by rewrite sub_spaces_has_gt.
  - cbn. by rewrite sub_spaces_has_gt.
Qed.

Lemma sub_spaces_no_tag s :
  has_tag s = false -> forall b, has_tag (sub_spaces_from b s) = false.
Proof.
  induction s as [|c s IH]; [done|]. cbn [has_tag].
  intros H b. apply orb_false_iff in H as [Hopen Hs].
  cbn [sub_spaces_from]. destruct (is_space c) eqn:Hc.
  - destruct b; [by apply IH|]. cbn. by apply IH.
  - cbn [has_tag]. rewrite (IH Hs), orb_false_r.
    apply andb_false_iff in Hopen as [Hlt|Hopen]; [by rewrite Hlt|].
    by rewrite (sub_spaces_keeps_closed s Hopen), andb_false_r.
Qed.

Lemma lstrip_no_tag s : has_tag s = false -> has_tag (lstrip s) = false.
Proof.
  induction s as [|c s IH]; [done|]. cbn [has_tag lstrip].
  intros H. destruct (is_space c); [|done].
  apply orb_false_iff in H as [_ Hs]. by apply IH.
Qed.

Lemma rstrip_has_gt s : has_gt (rstrip s) = has_gt s.
Proof.
  induction s as [|c s IH]; [done|]. cbn [rstrip has_gt].
  destruct (is_space c) eqn:Hc; cbn [andb].
  - destruct (is_empty (rstrip s)) eqn:He.
    + apply is_empty_true in He. rewrite He in IH.
      by rewrite (space_not_gt c Hc), <- IH.
    + cbn. by rewrite IH.
  - cbn. by rewrite IH.
Qed.

Lemma rstrip_tag_opens s : tag_opens (rstrip s) = true -> tag_opens s = true.
Proof.
  destruct s as [|c s]; [done|]. cbn [rstrip].
  destruct (is_space c && is_empty (rstrip s)); [done|].
  cbn. by rewrite rstrip_has_gt.
Qed.

Lemma rstrip_no_tag s : has_tag s = false -> has_tag (rstrip s) = false.
Proof.
  induction s as [|c s IH]; [done|]. cbn [has_tag rstrip].
  intros H. apply orb_false_iff in H as [Hopen Hs].
  destruct (is_space c && is_empty (rstrip s)); [done|].
  cbn [has_tag]. rewrite (IH Hs), orb_false_r.
  apply andb_false_iff in Hopen as [Hlt|Hopen]; [by rewrite Hlt|].
  destruct (tag_opens (rstrip s)) eqn:Ho; [|apply andb_false_r].
  apply rstrip_tag_opens in Ho. congruence.
Qed.

End StripHtmlFacts.

(** X19. What [strip_html] returns has no tag left: the pattern of a tag,
    a "<", one or more characters other than ">" and a ">", matches nowhere
    in it. *)
Theorem strip_html_no_tag text : has_tag (strip_html text) = false.
Proof.
  unfold strip_html. destruct (is_empty text); [done|].
  unfold strip. apply rstrip_no_tag, lstrip_no_tag, sub_spaces_no_tag.
  apply sub_tags_no_tag.
Qed.

Section SpacingFacts.

Lemma sub_spaces_start s : starts_with_space (sub_spaces_from true s) = false.
Proof.
  induction s as [|c s IH]; [done|]. cbn [sub_spaces_from].
  destruct (is_space c) eqn:Hc; [done|]. cbn. done.
Qed.

Lemma sub_spaces_single b s : single_spaced (sub_spaces_from b s) = true.
Proof.
  revert b. induction s as [|c s IH]; intros b; [done|].
  cbn [sub_spaces_from]. destruct (is_space c) eqn:Hc.
  - destruct b; [apply IH|].
    cbn [single_spaced]. rewrite IH, sub_spaces_start. reflexivity.
  - cbn [single_spaced]. by rewrite Hc, IH.
Qed.

Lemma lstrip_single s : single_spaced s = true -> single_spaced (lstrip s) = true.
Proof.
  induction s as [|c s IH]; [done|]. cbn [lstrip].
  intros H. destruct (is_space c) eqn:Hc; [|done].
  cbn [single_spaced] in H. apply andb_true_iff in H as [_ H]. by apply IH.
Qed.

Lemma lstrip_start s : starts_with_space (lstrip s) = false.
Proof.
  induction s as [|c s IH]; [done|]. cbn [lstrip].
  destruct (is_space c) eqn:Hc; [done|]. cbn. done.
Qed.

Lemma rstrip_start s : starts_with_space (rstrip s) = true -> starts_with_space s = true.
Proof.
  destruct s as [|c s]; [done|]. cbn [rstrip].
  by destruct (is_space c && is_empty (rstrip s)).
Qed.

Lemma rstrip_single s : single_spaced s = true -> single_spaced (rstrip s) = true.
Proof.
  induction s as [|c s IH]; [done|]. cbn [single_spaced rstrip].
  intros H. apply andb_true_iff in H as [Hc Hs].
  destruct (is_space c && is_empty (rstrip s)); [done|].
  cbn [single_spaced]. rewrite (IH Hs), andb_true_r.
  destruct (is_space c); [|done].
  apply andb_true_iff in Hc as [-> Hn]. cbn.
  destruct (starts_with_space (rstrip s)) eqn:Hr; [|done].
  apply rstrip_start in Hr. by rewrite Hr in Hn.
Qed.

Lemma lstrip_fixed s : starts_with_space s = false -> lstrip s = s.
Proof. destruct s as [|c s]; [done|]. cbn. by intros ->. Qed.

Lemma rstrip_idem s : rstrip (rstrip s) = rstrip s.
Proof.
  induction s as [|c s IH]; [done|]. cbn [rstrip].
  destruct (is_space c && is_empty (rstrip s)) eqn:H; [done|].
  cbn [rstrip]. by rewrite IH, H.
Qed.

(** Trimming what is trimmed changes nothing. *)
Lemma strip_idem s : strip (strip s) = strip s.
Proof.
  unfold strip. rewrite (lstrip_fixed (rstrip (lstrip s))).
  - apply rstrip_idem.
  - destruct (starts_with_space (rstrip (lstrip s))) eqn:H; [|done].
    apply rstrip_start in H. by rewrite lstrip_start in H.
Qed.

Lemma sub_spaces_true_false s :
  starts_with_space s = false -> sub_spaces_from true s = sub_spaces_from false s.
Proof. destruct s as [|c s]; [done|]. cbn. by intros ->. Qed.

Lemma sub_spaces_fixed s : single_spaced s = true -> sub_spaces_from false s = s.
Proof.
  induction s as [|c s IH]; [done|]. cbn [single_spaced sub_spaces_from].
  intros H. apply andb_true_iff in H as [Hc Hs].
  destruct (is_space c).
  - apply andb_true_iff in Hc as [Hc Hn]. apply negb_true_iff in Hn.
    apply Ascii.eqb_eq in Hc as ->.
    by rewrite (sub_spaces_true_false s Hn), (IH Hs).
  - by rewrite (IH Hs).
Qed.

Lemma sub_tags_fixed s : has_tag s = false -> sub_tags_from false s = s.
Proof.
  induction s as [|c s IH]; [done|]. cbn [has_tag sub_tags_from].
  intros H. apply orb_false_iff in H as [-> Hs]. by rewrite (IH Hs).
Qed.

End SpacingFacts.

(** X20. What [strip_html] returns is trimmed and single-spaced: it
    neither begins nor ends with whitespace, and every whitespace character
    in it is one space between two other characters. *)
Theorem strip_html_spacing text :
  strip (strip_html text) = strip_html text
  /\ single_spaced (strip_html text) = true.
Proof.
  unfold strip_html. destruct (is_empty text); [done|]. split.
  - apply strip_idem.
  - unfold strip. apply rstrip_single, lstrip_single, sub_spaces_single.
Qed.

(** X21. [strip_html] leaves alone a text that has no tag and is trimmed
    and single-spaced; so applying it twice is applying it once. *)
Theorem strip_html_clean text :
  (has_tag text = false -> single_spaced text = true -> strip text = text ->
   strip_html text = text)
  /\ strip_html (strip_html text) = strip_html text.
Proof.
  assert (forall t, has_tag t = false -> single_spaced t = true ->
                    strip t = t -> strip_html t = t) as Hclean.
  { intros t Htag Hsp Hst. unfold strip_html.
    destruct (is_empty t) eqn:He; [by apply is_empty_true in He|].
    unfold sub_tags, sub_spaces.
    by rewrite (sub_tags_fixed t Htag), (sub_spaces_fixed t Hsp). }
  split; [apply Hclean|].
  apply Hclean.
  - unfold strip_html. destruct (is_empty text); [done|].
    unfold strip. apply rstrip_no_tag, lstrip_no_tag, sub_spaces_no_tag.
    apply sub_tags_no_tag.
  - unfold strip_html. destruct (is_empty text); [done|].
    unfold strip. apply rstrip_single, lstrip_single, sub_spaces_single.
  - unfold strip_html. destruct (is_empty text); [done|]. apply strip_idem.
Qed.

Lemma strip_html_clean_witness :
  strip_html "Grid resilience of <cities>" = "Grid resilience of"
  /\ strip_html "a <> b < c" = "a <> b < c".
Proof.
  split; [reflexivity|].
  apply (proj1 (strip_html_clean "a <> b < c")); reflexivity.
Defined.

(** ** The collectors *)

Example arxiv_url_sample :
  arxiv_url ["eess.SY"; "cs.LG"] 50
  = "http://export.arxiv.org/api/query?search_query=cat:eess.SY OR cat:cs.LG&sortBy=submittedDate&sortOrder=descending&max_results=50".
Proof. reflexivity. Qed.

Lemma rss_entries_loop_acc parse clock jn source group entries :
  forall j papers,
    rss_entries_loop parse clock jn source group j entries papers
    = papers ++ rss_entries_loop parse clock jn source group j entries [].
Proof.
  induction entries as [|e entries IH]; intros j papers; simpl.
  - by rewrite app_nil_r.
  - destruct (rss_paper _ _ _ _ _ e); [|apply IH].
    rewrite IH, (IH _ [_]). by rewrite <- app_assoc.
Qed.

Lemma collect_rss_loop_concat fetch parse clock dg sources :
  forall i papers,
    collect_rss_loop fetch parse clock dg i sources papers
    = papers
      ++ concat (imap (fun k src => source_papers fetch parse clock dg (i + k) src)
                      sources).
Proof.
  induction sources as [|src sources IH]; intros i papers.
  - simpl. by rewrite app_nil_r.
  - cbn [collect_rss_loop]. rewrite imap_cons. cbn [concat].
    unfold source_papers at 1. rewrite Nat.add_0_r.
    assert (imap ((fun k src0 => source_papers fetch parse clock dg (i + k) src0) ∘ S)
                 sources
            = imap (fun k src0 => source_papers fetch parse clock dg (S i + k) src0)
                   sources) as ->.
    { apply imap_ext. intros k x _. simpl. f_equal. lia. }
    destruct (fetch i (src_url src)) as [feed|].
    + rewrite IH, rss_entries_loop_acc. by rewrite <- app_assoc.
    + by rewrite IH.
Qed.

(** X22. The papers of the feed collector are those of its sources one
    after the other; a source whose fetch fails adds none and leaves those
    of the other sources as they are. *)
Theorem collect_rss_sources_by_source fetch parse clock sources dg :
  collect_rss_sources fetch parse clock sources dg
  = concat (imap (source_papers fetch parse clock dg) sources)
  /\ (forall i src, fetch i (src_url src) = None ->
        source_papers fetch parse clock dg i src = []).
Proof.
  split.
  - unfold collect_rss_sources. rewrite collect_rss_loop_concat. simpl.
    f_equal.
  - intros i src H. unfold source_papers. by rewrite H.
Qed.

Lemma collect_rss_sources_by_source_witness :
  source_papers MoreSamples.fetch_second_only (fun _ => None) (fun _ _ => 7)
                "rss" 0 MoreSamples.source_a = [].
Proof.
  apply (proj2 (collect_rss_sources_by_source MoreSamples.fetch_second_only
                  (fun _ => None) (fun _ _ => 7)
                  [MoreSamples.source_a; MoreSamples.source_b] "rss")).
  reflexivity.
Defined.

Lemma strip_html_wellformed text :
  has_tag (strip_html text) = false
  /\ strip (strip_html text) = strip_html text
  /\ single_spaced (strip_html text) = true.
Proof.
  unfold strip_html. destruct (is_empty text); [done|]. split; [|split].
  - unfold strip. apply rstrip_no_tag, lstrip_no_tag, sub_spaces_no_tag.
    apply sub_tags_no_tag.
  - apply strip_idem.
  - unfold strip. apply rstrip_single, lstrip_single, sub_spaces_single.
Qed.

Lemma truthy_Some v : truthy v = true -> exists s, v = Some s /\ s ≠ "".
Proof.
  destruct v as [s|]; [|done]. simpl. intros H. exists s. split; [done|].
  apply is_empty_false. by apply negb_true_iff.
Qed.

Lemma entry_authors_trimmed entry : Forall (fun a => strip a = a) (entry_authors entry).
Proof.
  unfold entry_authors. apply Forall_forall. intros a Ha.
  apply list_elem_of_fmap in Ha as (x & -> & _). apply strip_idem.
Qed.

Lemma entry_doi_not_empty entry : entry_doi entry ≠ Some "".
Proof.
  unfold entry_doi.
  destruct (truthy (fe_doi entry)) eqn:H1.
  - apply truthy_Some in H1 as (s & -> & Hs). congruence.
  - destruct (truthy (fe_dc_identifier entry)) eqn:H2; [|done].
    apply truthy_Some in H2 as (s & -> & Hs). congruence.
Qed.

Lemma elem_of_concat {A} (x : A) (ls : list (list A)) :
  x ∈ concat ls <-> exists l, x ∈ l /\ l ∈ ls.
Proof.
  rewrite list_elem_of_In, in_concat. split.
  - intros (l & Hl & Hx). exists l. by rewrite !list_elem_of_In.
  - intros (l & Hx & Hl). exists l. by rewrite <- !list_elem_of_In.
Qed.

Lemma rss_entries_loop_elem parse clock jn source group entries p :
  forall j,
    p ∈ rss_entries_loop parse clock jn source group j entries [] ->
    exists e now, e ∈ entries /\ rss_paper parse now jn source group e = Some p.
Proof.
  induction entries as [|e entries IH]; intros j Hp; [by apply elem_of_nil in Hp|].
  cbn [rss_entries_loop] in Hp.
  destruct (rss_paper parse (clock j) jn source group e) as [q|] eqn:Hq.
  - rewrite rss_entries_loop_acc in Hp. simpl in Hp.
    apply elem_of_cons in Hp as [-> |Hp].
    + exists e, (clock j). split; [left | done].
    + destruct (IH _ Hp) as (e' & now & He' & Hr). exists e', now. split; [by right|done].
  - destruct (IH _ Hp) as (e' & now & He' & Hr). exists e', now. split; [by right|done].
Qed.

(** X23. Every paper of the feed collector has a title that is not empty
    and is trimmed, an abstract without tags, trimmed and single-spaced,
    trimmed author names, a doi that is missing or not empty, and the
    annotations of a new paper; its group is the one of its source or the
    default one, and its source and journal are the name of its source
    when that name is given and not empty. *)
Theorem collect_rss_sources_wellformed fetch parse clock sources dg :
  Forall (fun p =>
      title p ≠ "" /\ strip (title p) = title p
      /\ has_tag (abstract p) = false /\ strip (abstract p) = abstract p
      /\ single_spaced (abstract p) = true
      /\ Forall (fun a => strip a = a) (authors p)
      /\ doi p ≠ Some ""
      /\ keyword_hits p = 0 /\ group_hits p = 0
      /\ relevance_score p = None /\ relevance_reason p = None
      /\ summary p = None
      /\ exists src,
           src ∈ sources
           /\ source_group p = default dg (src_group src)
           /\ (forall n, src_name src = Some n -> n ≠ "" ->
                         journal p = n /\ source p = n))
    (collect_rss_sources fetch parse clock sources dg).
Proof.
  apply Forall_forall. intros p Hp.
  unfold collect_rss_sources in Hp. rewrite collect_rss_loop_concat in Hp.
  simpl in Hp. apply elem_of_concat in Hp as (l & Hp & Hl).
  apply list_elem_of_lookup in Hl as [i Hi].
  rewrite list_lookup_imap in Hi.
  destruct (sources !! i) as [src|] eqn:Hsrc; [|done].
  simpl in Hi. injection Hi as <-.
  apply list_elem_of_lookup_2 in Hsrc.
  unfold source_papers in Hp.
  destruct (fetch i (src_url src)) as [feed|]; [|by apply elem_of_nil in Hp].
  apply rss_entries_loop_elem in Hp as (e & now & _ & Hr).
  unfold rss_paper in Hr.
  destruct (is_empty (strip (default "" (fe_title e)))) eqn:Ht; [done|].
  injection Hr as <-. cbn.
  destruct (strip_html_wellformed
              (or_else (fe_summary e) (default "" (fe_description e))))
    as (Htag & Hstrip & Hsingle).
  split; [by apply is_empty_false|]. split; [apply strip_idem|].
  split; [done|]. split; [done|]. split; [done|].
  split; [apply entry_authors_trimmed|]. split; [apply entry_doi_not_empty|].
  do 5 (split; [done|]).
  exists src. split; [done|]. split; [done|].
  intros n Hn Hne. rewrite Hn. unfold or_else. simpl.
  apply is_empty_false in Hne. by rewrite Hne.
Qed.

Example collect_rss_sources_sample :
  map (fun p => (title p, authors p, journal p, source p, source_group p,
                 abstract p, published p, doi p))
      (collect_rss_sources MoreSamples.fetch_second_only MoreSamples.parse_t7
         (fun _ _ => 99) [MoreSamples.source_a; MoreSamples.source_b] "rss")
  = [("Grid
resilience", ["A. Author"], "Feed B", "Feed B", "nature", "Grid resilience", 7,
      Some "10.1/ABC")].
Proof. reflexivity. Qed.

Example collect_arxiv_sample :
  map (fun p => (title p, journal p, source_group p, published p, doi p))
      (collect_arxiv (fun _ => Some MoreSamples.feed_b) MoreSamples.parse_t7
         (fun _ => 99) ["cs.LG"] 50 false)
  = [("Grid resilience", "arXiv", "arxiv", 99, None)].
Proof. reflexivity. Qed.

Lemma arxiv_entries_loop_acc parse clock use_updated entries :
  forall j papers,
    arxiv_entries_loop parse clock use_updated j entries papers
    = papers ++ arxiv_entries_loop parse clock use_updated j entries [].
Proof.
  induction entries as [|e entries IH]; intros j papers; simpl.
  - by rewrite app_nil_r.
  - destruct (arxiv_paper _ _ _ e); [|apply IH].
    rewrite IH, (IH _ [_]). by rewrite <- app_assoc.
Qed.

Lemma arxiv_entries_loop_elem parse clock use_updated entries p :
  forall j,
    p ∈ arxiv_entries_loop parse clock use_updated j entries [] ->
    exists e now, e ∈ entries /\ arxiv_paper parse now use_updated e = Some p.
Proof.
  induction entries as [|e entries IH]; intros j Hp; [by apply elem_of_nil in Hp|].
  cbn [arxiv_entries_loop] in Hp.
  destruct (arxiv_paper parse (clock j) use_updated e) as [q|] eqn:Hq.
  - rewrite arxiv_entries_loop_acc in Hp. simpl in Hp.
    apply elem_of_cons in Hp as [-> |Hp].
    + exists e, (clock j). split; [left | done].
    + destruct (IH _ Hp) as (e' & now & He' & Hr). exists e', now. split; [by right|done].
  - destruct (IH _ Hp) as (e' & now & He' & Hr). exists e', now. split; [by right|done].
Qed.

Lemma replace_newlines_none s : string_forall not_newline (replace_newlines s) = true.
Proof.
  induction s as [|c s IH]; [done|]. cbn [replace_newlines string_forall].
  rewrite IH, andb_true_r. unfold not_newline.
  destruct (Ascii.eqb c "010") eqn:Hc; [done|]. by rewrite Hc.
Qed.

Lemma lstrip_forall f s : string_forall f s = true -> string_forall f (lstrip s) = true.
Proof.
  induction s as [|c s IH]; [done|]. cbn [lstrip].
  intros H. destruct (is_space c); [|done].
  cbn in H. apply andb_true_iff in H as [_ H]. by apply IH.
Qed.

Lemma rstrip_forall f s : string_forall f s = true -> string_forall f (rstrip s) = true.
Proof.
  induction s as [|c s IH]; [done|]. cbn [rstrip string_forall].
  intros H. apply andb_true_iff in H as [Hc H].
  destruct (is_space c && is_empty (rstrip s)); [done|].
  cbn. by rewrite Hc, (IH H).
Qed.

(** X24. Every paper of the arXiv collector has the journal and the source
    "arXiv", the group "arxiv" and no doi, so that its fingerprint is the
    one of its title; its title is not empty, is trimmed and has no line
    break, and it has the annotations of a new paper.  Without categories,
    or when the fetch fails, the collector returns no paper. *)
Theorem collect_arxiv_papers fetch parse clock categories max_results use_updated :
  Forall (fun p =>
      journal p = "arXiv" /\ source p = "arXiv" /\ source_group p = "arxiv"
      /\ doi p = None
      /\ fingerprint p = "title:" +:+ normalize_title (title p)
      /\ title p ≠ "" /\ strip (title p) = title p
      /\ string_forall not_newline (title p) = true
      /\ has_tag (abstract p) = false
      /\ keyword_hits p = 0 /\ group_hits p = 0
      /\ relevance_score p = None /\ summary p = None)
    (collect_arxiv fetch parse clock categories max_results use_updated)
  /\ collect_arxiv fetch parse clock [] max_results use_updated = []
  /\ (fetch (arxiv_url categories max_results) = None ->
      collect_arxiv fetch parse clock categories max_results use_updated = []).
Proof.
  split; [|split].
  - apply Forall_forall. intros p Hp. unfold collect_arxiv in Hp.
    destruct (is_nil categories); [by apply elem_of_nil in Hp|].
    destruct (fetch _) as [feed|]; [|by apply elem_of_nil in Hp].
    apply arxiv_entries_loop_elem in Hp as (e & now & _ & Hr).
    unfold arxiv_paper in Hr.
    destruct (is_empty (strip (replace_newlines (default "" (fe_title e)))))
      eqn:Ht; [done|].
    injection Hr as <-. cbn.
    do 5 (split; [done|]).
    split; [by apply is_empty_false|]. split; [apply strip_idem|].
    split.
    { unfold strip. apply rstrip_forall, lstrip_forall, replace_newlines_none. }
    split; [apply strip_html_wellformed|]. done.
  - done.
  - intros H. unfold collect_arxiv. rewrite H. by destruct (is_nil categories).
Qed.

Lemma collect_arxiv_papers_witness :
  collect_arxiv (fun _ => None) MoreSamples.parse_t7 (fun _ => 99) ["cs.LG"] 50 true
  = [].
Proof.
  apply (proj2 (proj2 (collect_arxiv_papers (fun _ => None) MoreSamples.parse_t7
                         (fun _ => 99) ["cs.LG"] 50 true))).
  reflexivity.
Defined.

(** ** The date of an entry *)

Lemma first_date_Some parse vals t :
  first_date parse vals = Some t <->
  exists before val after,
    vals = before ++ val :: after
    /\ Forall (no_date parse) before
    /\ truthy val = true /\ parse (default "" val) = Some t.
Proof.
  induction vals as [|v vals IH]; simpl.
  - split; [done|]. intros (b & x & a & H & _). by destruct b.
  - destruct (truthy v) eqn:Hv.
    + destruct (parse (default "" v)) as [dt|] eqn:Hp.
      * split.
        -- intros [= ->]. exists [], v, vals. by repeat split.
        -- intros (b & x & a & H & Hb & Hx & Hpx).
           destruct b as [|y b]; simpl in H; injection H as -> ->.
           ++ congruence.
           ++ apply Forall_cons in Hb as [[Hy|Hy] _]; congruence.
      * rewrite IH. split.
        -- intros (b & x & a & -> & Hb & Hx & Hpx).
           exists (v :: b), x, a. repeat split; try done.
           constructor; [by right | done].
        -- intros (b & x & a & H & Hb & Hx & Hpx).
           destruct b as [|y b]; simpl in H; injection H as -> ->; [congruence|].
           apply Forall_cons in Hb as [_ Hb]. by exists b, x, a.
    + rewrite IH. split.
      * intros (b & x & a & -> & Hb & Hx & Hpx).
        exists (v :: b), x, a. repeat split; try done.
        constructor; [by left | done].
      * intros (b & x & a & H & Hb & Hx & Hpx).
        destruct b as [|y b]; simpl in H; injection H as -> ->; [congruence|].
        apply Forall_cons in Hb as [_ Hb]. by exists b, x, a.
Qed.

Lemma first_date_None parse vals :
  first_date parse vals = None <-> Forall (no_date parse) vals.
Proof.
  induction vals as [|v vals IH]; simpl; [by split; [constructor|]|].
  rewrite Forall_cons. unfold no_date at 1.
  destruct (truthy v) eqn:Hv.
  - destruct (parse (default "" v)) eqn:Hp.
    + split; [done|]. intros [[?|?] _]; congruence.
    + rewrite IH. split; [intros H; split; [by right|done] | by intros [_ H]].
  - rewrite IH. split; [intros H; split; [by left|done] | by intros [_ H]].
Qed.

(** X25. The date of an entry is the one of the first of the keys
    published, updated and pubDate whose value is not empty and parses: a
    value that does not parse is passed over and the next key is tried.
    There is no date exactly when none of the three gives one, and the
    feed collector then takes the clock. *)
Theorem parse_entry_date_first parse published updated pubDate :
  (forall t,
     parse_entry_date parse published updated pubDate = Some t <->
     exists before val after,
       [published; updated; pubDate] = before ++ val :: after
       /\ Forall (no_date parse) before
       /\ truthy val = true /\ parse (default "" val) = Some t)
  /\ (parse_entry_date parse published updated pubDate = None <->
      Forall (no_date parse) [published; updated; pubDate]).
Proof.
  split; [intros t; apply first_date_Some | apply first_date_None].
Qed.

(** ** [extract_json] *)

Example search_braces_samples :
  search_braces "Sure: {a: {b}} done} ok" = Some "{a: {b}} done}"
  /\ search_braces "} {" = None /\ search_braces "no braces" = None
  /\ search_braces "}{}" = Some "{}".
Proof. repeat split. Qed.

Lemma append_cons c s t : String c s +:+ t = String c (s +:+ t).
Proof. done. Qed.

Lemma from_first_brace_app pre rest :
  string_forall not_open_brace pre = true ->
  from_first_brace (pre +:+ String "{" rest) = Some (String "{" rest).
Proof.
  induction pre as [|c pre IH]; [done|]. cbn [string_forall].
  intros H. apply andb_true_iff in H as [Hc H].
  rewrite append_cons. cbn [from_first_brace].
  unfold not_open_brace in Hc. apply negb_true_iff in Hc. rewrite Hc. by apply IH.
Qed.

Lemma from_first_brace_none s :
  string_forall not_open_brace s = true -> from_first_brace s = None.
Proof.
  induction s as [|c s IH]; [done|]. cbn [string_forall from_first_brace].
  intros H. apply andb_true_iff in H as [Hc H].
  unfold not_open_brace in Hc. apply negb_true_iff in Hc. rewrite Hc. by apply IH.
Qed.

Lemma upto_last_brace_none s :
  string_forall not_close_brace s = true -> upto_last_brace s = None.
Proof.
  induction s as [|c s IH]; [done|]. cbn [string_forall upto_last_brace].
  intros H. apply andb_true_iff in H as [Hc H].
  unfold not_close_brace in Hc. apply negb_true_iff in Hc. by rewrite (IH H), Hc.
Qed.

Lemma upto_last_brace_app x post :
  string_forall not_close_brace post = true ->
  upto_last_brace (x +:+ String "}" post) = Some (x +:+ "}").
Proof.
  intros Hpost. induction x as [|c x IH].
  - change ("" +:+ String "}" post) with (String "}" post).
    cbn [upto_last_brace]. by rewrite (upto_last_brace_none post Hpost).
  - rewrite !append_cons. cbn [upto_last_brace]. by rewrite IH.
Qed.

Lemma search_braces_app pre mid post :
  string_forall not_open_brace pre = true ->
  string_forall not_close_brace post = true ->
  search_braces (pre +:+ String "{" (mid +:+ String "}" post))
  = Some (String "{" (mid +:+ "}")).
Proof.
  intros Hpre Hpost. unfold search_braces.
  rewrite (from_first_brace_app pre _ Hpre).
  exact (upto_last_brace_app (String "{" mid) post Hpost).
Qed.

(** X26. When the trimmed reply is not JSON as a whole, [extract_json]
    parses the text from its first "{" to its last "}" and ignores what is
    around; when the trimmed reply has no "{" it returns what parsing the
    whole gives, an error included. *)
Theorem extract_json_embedded loads content :
  (forall pre mid post,
     strip content = pre +:+ String "{" (mid +:+ String "}" post) ->
     string_forall not_open_brace pre = true ->
     string_forall not_close_brace post = true ->
     loads (strip content) = None ->
     extract_json loads content = loads (String "{" (mid +:+ "}")))
  /\ (string_forall not_open_brace (strip content) = true ->
      extract_json loads content = loads (strip content)).
Proof.
  split.
  - intros pre mid post Hc Hpre Hpost Hwhole. unfold extract_json.
    rewrite Hwhole, Hc. by rewrite (search_braces_app pre mid post Hpre Hpost).
  - intros Hno. unfold extract_json.
    destruct (loads (strip content)) eqn:Hl; [done|].
    unfold search_braces. by rewrite (from_first_brace_none _ Hno).
Qed.

Lemma extract_json_embedded_witness :
  extract_json MoreSamples.loads_score MoreSamples.score_reply
  = Some (JObj [("score", JInt 80)])
  /\ extract_json MoreSamples.loads_score "I cannot tell" = None.
Proof.
  destruct (extract_json_embedded MoreSamples.loads_score MoreSamples.score_reply)
    as [Hemb _].
  destruct (extract_json_embedded MoreSamples.loads_score "I cannot tell")
    as [_ Hnone].
  split.
  - apply (Hemb "The score: "
                (MoreSamples.dq +:+ "score" +:+ MoreSamples.dq +:+ ": 80")
                ". Bye"); reflexivity.
  - rewrite Hnone; reflexivity.
Defined.

(** ** [send_email] *)

Example send_email_calls_sample :
  send_email_calls MoreSamples.rt_port MoreSamples.mail_env MoreSamples.server_ok "Bot"
  = ([Smtp "smtp.example" 587; StartTLS; Login "bot@example" "secret";
      SendMail "bot@example" ["a@example"; "b@example"; ""]
               "Bot <bot@example>" "a@example, b@example ,";
      Quit], None).
Proof. reflexivity. Qed.

(** X27. [send_email] calls the mail server only with complete settings:
    when the port is not a number, or when the host, the user, the
    password or the recipients are unset or empty or the port is 0, it
    raises before any call. *)
Theorem send_email_needs_settings rt menv srv from_name :
  (fst (send_email_calls rt menv srv from_name) = [] ->
   snd (send_email_calls rt menv srv from_name) = Some PortValueError
   \/ snd (send_email_calls rt menv srv from_name) = Some IncompleteSettings)
  /\ (fst (send_email_calls rt menv srv from_name) ≠ [] ->
      exists port,
        int_of_str rt (default "0" (SMTP_PORT menv)) = Some port /\ port ≠ 0
        /\ truthy (SMTP_HOST menv) = true /\ truthy (SMTP_USER menv) = true
        /\ truthy (SMTP_PASS menv) = true /\ truthy (MAIL_TO menv) = true).
Proof.
  unfold send_email_calls.
  destruct (int_of_str rt (default "0" (SMTP_PORT menv))) as [port|];
    [|split; [by left | done]].
  destruct (truthy (SMTP_HOST menv)), (port =? 0) eqn:Hport,
    (truthy (SMTP_USER menv)), (truthy (SMTP_PASS menv)),
    (truthy (MAIL_TO menv)); cbn [negb orb]; try (split; [by right | done]).
  apply Z.eqb_neq in Hport. split.
  - destruct (port =? 465), (connect_ok srv), (starttls_ok srv), (login_ok srv);
      simpl; discriminate.
  - intros _. by exists port.
Qed.

Lemma send_email_needs_settings_witness :
  snd (send_email_calls MoreSamples.rt_port MoreSamples.mail_env_no_host
         MoreSamples.server_ok "Bot") = Some PortValueError
  \/ snd (send_email_calls MoreSamples.rt_port MoreSamples.mail_env_no_host
            MoreSamples.server_ok "Bot") = Some IncompleteSettings.
Proof.
  apply (proj1 (send_email_needs_settings MoreSamples.rt_port
                  MoreSamples.mail_env_no_host MoreSamples.server_ok "Bot")).
  reflexivity.
Defined.

(** X28. [send_email] connects with SSL for the port 465 and otherwise
    without, followed by STARTTLS.  Once the login is tried the
    connection is closed, also when the login or the sending fails; there
    is no exception only when the message was handed over and the
    connection closed. *)
Theorem send_email_session rt menv srv from_name port :
  int_of_str rt (default "0" (SMTP_PORT menv)) = Some port ->
  fst (send_email_calls rt menv srv from_name) ≠ [] ->
  head (fst (send_email_calls rt menv srv from_name))
  = Some (if port =? 465 then SmtpSSL (default "" (SMTP_HOST menv)) port
          else Smtp (default "" (SMTP_HOST menv)) port)
  /\ (StartTLS ∈ fst (send_email_calls rt menv srv from_name) <->
      port ≠ 465 /\ connect_ok srv = true)
  /\ (existsb is_login (fst (send_email_calls rt menv srv from_name)) = true ->
      last (fst (send_email_calls rt menv srv from_name)) = Some Quit)
  /\ (snd (send_email_calls rt menv srv from_name) = None ->
      existsb is_send (fst (send_email_calls rt menv srv from_name)) = true
      /\ last (fst (send_email_calls rt menv srv from_name)) = Some Quit).
Proof.
  intros Hport. unfold send_email_calls. rewrite Hport.
  destruct (negb (truthy (SMTP_HOST menv)) || (port =? 0)
            || negb (truthy (SMTP_USER menv)) || negb (truthy (SMTP_PASS menv))
            || negb (truthy (MAIL_TO menv))); [done|].
  intros _.
  assert (forall l : list smtp_call,
            StartTLS ∈ l <-> existsb (fun c => match c with StartTLS => true | _ => false end) l = true)
    as Htls.
  { intros l. rewrite existsb_exists. split.
    - intros Hin. exists StartTLS. by rewrite <- list_elem_of_In.
    - intros (c & Hin & Hc). destruct c; try done. by apply list_elem_of_In. }
  rewrite Htls. clear Htls.
  destruct (port =? 465) eqn:Hssl.
  - apply Z.eqb_eq in Hssl.
    destruct (connect_ok srv), (login_ok srv), (sendmail_ok srv), (quit_ok srv);
      cbn; (split; [done|]); (split; [split; [done | by intros [? _]]|]);
      split; done.
  - apply Z.eqb_neq in Hssl.
    destruct (connect_ok srv), (starttls_ok srv), (login_ok srv),
      (sendmail_ok srv), (quit_ok srv);
      cbn; (split; [done|]);
      (split; [split; [done | try done; by intros [_ ?]]|]);
      split; done.
Qed.

Lemma send_email_session_witness :
  head (fst (send_email_calls MoreSamples.rt_port MoreSamples.mail_env
               MoreSamples.server_login_fails "Bot"))
  = Some (Smtp "smtp.example" 587)
  /\ last (fst (send_email_calls MoreSamples.rt_port MoreSamples.mail_env
                  MoreSamples.server_login_fails "Bot"))
     = Some Quit.
Proof.
  destruct (send_email_session MoreSamples.rt_port MoreSamples.mail_env
              MoreSamples.server_login_fails "Bot" 587)
    as (Hhead & _ & Hquit & _); [reflexivity | discriminate |].
  split; [exact Hhead | apply Hquit; reflexivity].
Defined.

Lemma split_on_not_nil sep s : split_on sep s ≠ [].
Proof.
  destruct s as [|c s]; [done|]. cbn [split_on].
  destruct (Ascii.eqb c sep); [done|]. by destruct (split_on sep s).
Qed.

Lemma split_on_pieces s : Forall (fun x => string_forall not_comma x = true) (split_on "," s).
Proof.
  induction s as [|c s IH]; [by repeat constructor|]. cbn [split_on].
  destruct (Ascii.eqb c ",") eqn:Hc; [by constructor|].
  destruct (split_on "," s) as [|x rest].
  - constructor; [|constructor]. cbn. unfold not_comma. by rewrite Hc.
  - apply Forall_cons in IH as [Hx Hrest]. constructor; [|done].
    cbn. unfold not_comma at 1. by rewrite Hc, Hx.
Qed.

Lemma join_split s : join "," (split_on "," s) = s.
Proof.
  induction s as [|c s IH]; [done|]. cbn [split_on].
  destruct (Ascii.eqb c ",") eqn:Hc.
  - apply Ascii.eqb_eq in Hc as ->.
    pose proof (split_on_not_nil "," s) as Hne.
    destruct (split_on "," s) as [|x rest] eqn:Hs; [done|].
    cbn [join]. cbn [join] in IH. by rewrite IH.
  - destruct (split_on "," s) as [|x rest] eqn:Hs; [by destruct (split_on_not_nil "," s)|].
    destruct rest as [|y rest]; cbn [join] in *; by rewrite <- IH.
Qed.

Lemma split_on_trailing s : split_on "," (s +:+ ",") = split_on "," s ++ [""].
Proof.
  induction s as [|c s IH]; [done|].
  rewrite append_cons. cbn [split_on]. rewrite IH.
  destruct (Ascii.eqb c ","); [done|].
  pose proof (split_on_not_nil "," s) as Hne.
  by destruct (split_on "," s).
Qed.

(** X29. The recipients are the pieces of [MAIL_TO] between its commas,
    each trimmed: there is at least one, none has a comma or whitespace
    around it, and the pieces joined by commas give [MAIL_TO] back.  A
    comma at the end gives one more recipient, the empty one. *)
Theorem recipients_of_spec mail_to :
  recipients_of mail_to ≠ []
  /\ Forall (fun r => strip r = r /\ string_forall not_comma r = true)
            (recipients_of mail_to)
  /\ join "," (split_on "," mail_to) = mail_to
  /\ length (recipients_of mail_to) = length (split_on "," mail_to)
  /\ recipients_of (mail_to +:+ ",") = recipients_of mail_to ++ [""].
Proof.
  split; [|split; [|split; [|split]]].
  - unfold recipients_of. pose proof (split_on_not_nil "," mail_to).
    by destruct (split_on "," mail_to).
  - unfold recipients_of. apply Forall_forall. intros r Hr.
    apply list_elem_of_fmap in Hr as (x & -> & Hx).
    split; [apply strip_idem|].
    unfold strip. apply rstrip_forall, lstrip_forall.
    eapply Forall_forall in Hx; [exact Hx | apply split_on_pieces].
  - apply join_split.
  - unfold recipients_of. apply length_map.
  - unfold recipients_of. by rewrite split_on_trailing, map_app.
Qed.

(** ** Case *)

Lemma existsb_map {A B} (f : A -> B) (g : B -> bool) (l : list A) :
  existsb (fun x => g (f x)) l = existsb g (map f l).
Proof. induction l as [|x l IH]; simpl; [done|]. by rewrite IH. Qed.

Lemma filter_map_length {A B} (f : A -> B) (g : B -> bool) (l : list A) :
  length (List.filter (fun x => g (f x)) l) = length (List.filter g (map f l)).
Proof.
  induction l as [|x l IH]; simpl; [done|]. destruct (g (f x)); simpl; by rewrite IH.
Qed.

(** X30. The scores and the title exclusion ignore case: two texts that
    agree once lowercased, with keywords, groups and prefixes that agree
    once lowercased, get the same keyword score, the same group score and
    the same exclusion. *)
Theorem scores_ignore_case text text' kws kws' groups groups' prefixes prefixes' :
  lower text = lower text' ->
  map lower kws = map lower kws' ->
  map (map lower) groups = map (map lower) groups' ->
  map lower prefixes = map lower prefixes' ->
  keyword_score text kws = keyword_score text' kws'
  /\ group_score text groups = group_score text' groups'
  /\ should_exclude_title text prefixes = should_exclude_title text' prefixes'.
Proof.
  intros Ht Hk Hg Hp. split; [|split].
  - unfold keyword_score.
    rewrite (foldl_count (fun kw => contains (lower text) (lower kw))),
            (foldl_count (fun kw => contains (lower text') (lower kw))).
    rewrite (filter_map_length lower (contains (lower text))),
            (filter_map_length lower (contains (lower text'))).
    by rewrite Ht, Hk.
  - rewrite !group_score_count. unfold matches.
    assert (forall t gs,
              length (List.filter (fun g => existsb (fun kw => contains (lower t) (lower kw)) g) gs)
              = length (List.filter (existsb (contains (lower t))) (map (map lower) gs)))
      as Hcount.
    { intros t gs. induction gs as [|g gs IH]; simpl; [done|].
      rewrite (existsb_map lower (contains (lower t)) g).
      destruct (existsb _ _); simpl; by rewrite IH. }
    by rewrite !Hcount, Ht, Hg.
  - unfold should_exclude_title.
    assert (is_nil prefixes = is_nil prefixes') as ->.
    { destruct prefixes, prefixes'; done. }
    destruct (is_nil prefixes'); [done|].
    rewrite (existsb_map lower (startswith (lower (strip text))) prefixes),
            (existsb_map lower (startswith (lower (strip text'))) prefixes').
    by rewrite !lower_strip, Ht, Hp.
Qed.

Lemma scores_ignore_case_witness :
  keyword_score "Grid Resilience" ["GRID"; "solar"]
  = keyword_score "grid resilience" ["grid"; "Solar"]
  /\ group_score "Grid Resilience" [["GRID"]; ["wind"]]
     = group_score "grid resilience" [["grid"]; ["Wind"]]
  /\ should_exclude_title "Grid Resilience" ["GRID"]
     = should_exclude_title "grid resilience" ["grid"].
Proof.
  apply scores_ignore_case; reflexivity.
Defined.
